(** * Config-sync main service (services/main.js): a shallow embedding

    The service mirrors configuration objects between a database (reached
    through one provider service per config type) and JSON files in a
    destination directory.  This development embeds the functions of
    [services/main.js] over explicit models of the JavaScript values they
    handle, of the file system and of the provider services, and proves
    what the functions do.

    Conventions of the model.
    - A JavaScript string is a [string]: a sequence of code units, here the
      code units below 256.
    - A JavaScript object used as a dictionary (a snapshot of configs) is a
      [gmap string json].
    - An [async] function is a function of the world that yields an
      [outcome] (the promise fulfilled with a value, or rejected with an
      error) and the world it leaves behind. *)

From Stdlib Require Import ZArith Ascii String DecimalString.
From stdpp Require Import gmap strings list.

Local Open Scope Z_scope.

(** ** JavaScript string primitives *)

Module Js.

(** [s.replace(/c/g, d)] for a pattern [c] and a replacement [d] of one
    character each. *)
Fixpoint replaceAll (c d : ascii) (s : string) : string :=
  match s with
  | EmptyString => EmptyString
  | String a s' => String (if decide (a = c) then d else a) (replaceAll c d s')
  end.

(** [s.split(sep)] for a separator of one character.  The result is never
    the empty array: splitting the empty string gives the array of the
    empty string. *)
Fixpoint split (sep : ascii) (s : string) : list string :=
  match s with
  | EmptyString => [EmptyString]
  | String a s' =>
      if decide (a = sep) then EmptyString :: split sep s'
      else match split sep s' with
           | [] => [String a EmptyString]
           | w :: ws => String a w :: ws
           end
  end.

(** [l.join(sep)]. *)
Fixpoint join (sep : string) (l : list string) : string :=
  match l with
  | [] => EmptyString
  | [x] => x
  | x :: xs => x +:+ sep +:+ join sep xs
  end.

(** [l.slice(0, -1)]: all elements but the last. *)
Definition sliceInit (l : list string) : list string := removelast l.

(** [l[0]] of an array that [split] returned. *)
Definition first (l : list string) : string := default EmptyString (head l).

(** The characters that [.] of a regular expression does not match. *)
Definition isLineTerminator (a : ascii) : bool :=
  bool_decide (a = "010"%char) || bool_decide (a = "013"%char).

(** What the greedy group [(.+)] captures at the start of [s]: the longest
    prefix free of line terminators (the group fails when this is empty). *)
Fixpoint dotPlus (s : string) : string :=
  match s with
  | EmptyString => EmptyString
  | String a s' => if isLineTerminator a then EmptyString else String a (dotPlus s')
  end.

(** [s.split(/\.(.+)/)[1]]: the capture of the first match, that is, at the
    first ['.'] that is followed by a character other than a line terminator;
    [None] is [undefined], when the pattern matches nowhere. *)
Fixpoint splitRest (s : string) : option string :=
  match s with
  | EmptyString => None
  | String a s' =>
      if decide (a = "."%char) then
        match dotPlus s' with
        | EmptyString => splitRest s'
        | cap => Some cap
        end
      else splitRest s'
  end.

(** [l.includes(x)] on an array of strings. *)
Definition includes (l : list string) (x : string) : bool := bool_decide (x ∈ l).

(** The character [c] occurs in [s]. *)
Fixpoint occurs (c : ascii) (s : string) : bool :=
  match s with
  | EmptyString => false
  | String a s' => bool_decide (a = c) || occurs c s'
  end.

End Js.

(** ** The key codec: [':'] is written as ['#'] in file names *)

(** [configName.replace(/:/g, "#")] of [writeConfigFile], [deleteConfigFile]
    and [readConfigFile]. *)
Definition encodeName (configName : string) : string :=
  Js.replaceAll ":" "#" configName.

(** [name.replace(/#/g, ":")] of [getAllConfigFromFiles]. *)
Definition formatName (name : string) : string :=
  Js.replaceAll "#" ":" name.

(** ** JSON values and [JSON.stringify] *)

(** A config's content.  Numbers are the integral ones; an object lists its
    properties in enumeration order. *)
#[warnings="-register-all"]
Inductive json : Type :=
  | JNull
  | JBool (b : bool)
  | JNum (n : Z)
  | JStr (s : string)
  | JArr (items : list json)
  | JObj (props : list (string * json)).

Module JSON.

Definition hexDigit (n : nat) : ascii :=
  match n with
  | 0 => "0" | 1 => "1" | 2 => "2" | 3 => "3" | 4 => "4" | 5 => "5"
  | 6 => "6" | 7 => "7" | 8 => "8" | 9 => "9" | 10 => "a" | 11 => "b"
  | 12 => "c" | 13 => "d" | 14 => "e" | _ => "f"
  end%nat%char.

(** The double quote character. *)
Definition dquote : ascii := "034"%char.

(** One code unit inside a quoted string (QuoteJSONString). *)
Definition quoteChar (a : ascii) : string :=
  if decide (a = "008"%char) then "\b"
  else if decide (a = "009"%char) then "\t"
  else if decide (a = "010"%char) then "\n"
  else if decide (a = "012"%char) then "\f"
  else if decide (a = "013"%char) then "\r"
  else if decide (a = dquote) then String "\" (String dquote EmptyString)
  else if decide (a = "\"%char) then "\\"
  else if (nat_of_ascii a <? 32)%nat then
    "\u00" +:+ String (hexDigit (nat_of_ascii a / 16))
                 (String (hexDigit (nat_of_ascii a mod 16)) EmptyString)
  else String a EmptyString.

Fixpoint quoteBody (s : string) : string :=
  match s with
  | EmptyString => EmptyString
  | String a s' => quoteChar a +:+ quoteBody s'
  end.

Definition quote (s : string) : string :=
  String dquote (quoteBody s +:+ String dquote EmptyString).

(** [Number::toString] of an integer that JavaScript holds exactly and
    prints in plain decimal: a safe integer.  From [1e21] on JavaScript
    prints an exponent, which this function does not. *)
Definition numberToString (n : Z) : string :=
  NilZero.string_of_int (Z.to_int n).

(** SerializeJSONProperty with the indentation unit [gap] (empty for
    [JSON.stringify(v)], two spaces for [JSON.stringify(v, null, 2)]) at the
    current indentation [indent]. *)
Fixpoint serialize (gap indent : string) (v : json) : string :=
  let stepback := indent in
  let indent := indent +:+ gap in
  let wrap (l r : string) (partial : list string) : string :=
    match partial with
    | [] => l +:+ r
    | _ =>
        if decide (gap = EmptyString) then l +:+ Js.join "," partial +:+ r
        else l +:+ String "010" indent
               +:+ Js.join ("," +:+ String "010" indent) partial
               +:+ String "010" stepback +:+ r
    end in
  match v with
  | JNull => "null"
  | JBool true => "true"
  | JBool false => "false"
  | JNum n => numberToString n
  | JStr s => quote s
  | JArr items => wrap "[" "]" (map (serialize gap indent) items)
  | JObj props =>
      wrap "{" "}"
        (map (fun kv =>
                quote (fst kv) +:+ ":"
                  +:+ (if decide (gap = EmptyString) then EmptyString else " ")
                  +:+ serialize gap indent (snd kv)) props)
  end.

(** [JSON.stringify(value, null, space)]; [space] is the number of spaces of
    one indentation step, [0] when the argument is left out. *)
Definition stringify (value : json) (space : nat) : string :=
  serialize (String.string_of_list_ascii (replicate space " "%char)) EmptyString value.

End JSON.

(** ** Outcomes of asynchronous calls *)

Inductive error : Type :=
  | TypeError      (* a property of [undefined] was read *)
  | SyntaxError    (* [JSON.parse] on text that is not JSON *)
  | ENOENT         (* no such file or directory *)
  | EACCES         (* permission denied *)
  | EISDIR         (* the path names a directory *)
  | ENOTDIR        (* the path does not name a directory *)
  | EEXIST         (* the path exists already *)
  | ProviderError. (* a provider service failed *)

(** How a promise settles (for a synchronous call: returns or throws). *)
Inductive outcome (A : Type) : Type :=
  | Fulfilled (a : A)
  | Rejected (e : error).
Arguments Fulfilled {A} a.
Arguments Rejected {A} e.

(** ** The file system *)

(** Regular files with their text, directories, and the paths that cannot be
    modified (every attempt fails with a permission error).  A path is the
    string the program passes to [fs]; the model does not resolve two
    spellings of one path, and a write looks at its path alone. *)
Record FS : Type := mkFS {
  files : gmap string string;
  dirs : gset string;
  readonly : gset string
}.

(** A provider operation that changes the database or the files. *)
Inductive call : Type :=
  | ImportSingle (configType configName : string) (content : json)
  | ExportAll (configType : string).

(** The state outside the service: the file system and the log of the
    state-changing provider operations invoked so far. *)
Record World : Type := mkWorld {
  fs : FS;
  calls : list call
}.

(** A computation in the world: it settles, and leaves a world behind. *)
Definition M (A : Type) : Type := World -> outcome A * World.

Definition ret {A} (a : A) : M A := fun w => (Fulfilled a, w).

Definition throw {A} (e : error) : M A := fun w => (Rejected e, w).

Definition bind {A B} (m : M A) (k : A -> M B) : M B :=
  fun w =>
    match m w with
    | (Fulfilled a, w') => k a w'
    | (Rejected e, w') => (Rejected e, w')
    end.

(** [m.catch(handler)], or [try { m } catch (e) { handler }]. *)
Definition catch {A} (m : M A) (handler : error -> M A) : M A :=
  fun w =>
    match m w with
    | (Fulfilled a, w') => (Fulfilled a, w')
    | (Rejected e, w') => handler e w'
    end.

(** A call whose promise nobody awaits: the caller goes on at once, and the
    outcome of the call is lost.  The world after it is the one in which
    the call has settled.  Calls detached one after the other settle here in
    the order in which they were started; the code fixes no order, and the
    properties of such calls are stated up to their order. *)
Definition detach {A} (m : M A) : M unit :=
  fun w => (Fulfilled tt, snd (m w)).

Notation "'let*' x ':=' m 'in' k" := (bind m (fun x => k))
  (at level 10, x name, m at level 100, k at level 200).
Notation "m '>>>' k" := (bind m (fun _ => k))
  (at level 100, k at level 200, right associativity).

(** [await Promise.all(l.map(async (x) => body))], where [body] may assign
    to a variable [s] of the enclosing function.  Every callback runs, also
    after one of them was rejected; the whole is rejected with the first
    rejection.  The callbacks settle here in the order of the list; where
    the order in which they settle matters, as in
    [getAllConfigFromDatabase], the list is the order in which they do. *)
Fixpoint promiseAllMap {A S} (body : A -> S -> M S) (l : list A) (s : S) : M S :=
  match l with
  | [] => ret s
  | x :: xs =>
      fun w =>
        match body x s w with
        | (Fulfilled s', w') => promiseAllMap body xs s' w'
        | (Rejected e, w') => (Rejected e, snd (promiseAllMap body xs s w'))
        end
  end.

Module Fs.

Definition withFiles (f : gmap string string) (w : World) : World :=
  mkWorld (mkFS f (dirs (fs w)) (readonly (fs w))) (calls w).

Definition withDirs (d : gset string) (w : World) : World :=
  mkWorld (mkFS (files (fs w)) d (readonly (fs w))) (calls w).

(** [fs.existsSync(path)]: never throws. *)
Definition existsSync (path : string) : M bool :=
  fun w =>
    (Fulfilled (bool_decide (is_Some (files (fs w) !! path))
                || bool_decide (path ∈ dirs (fs w))), w).

(** [fs.mkdirSync(path, { recursive: true })]: an existing directory is no
    error. *)
Definition mkdirSync (path : string) : M unit :=
  fun w =>
    if bool_decide (path ∈ dirs (fs w)) then (Fulfilled tt, w)
    else if bool_decide (is_Some (files (fs w) !! path)) then (Rejected EEXIST, w)
    else if bool_decide (path ∈ readonly (fs w)) then (Rejected EACCES, w)
    else (Fulfilled tt, withDirs ({[path]} ∪ dirs (fs w)) w).

(** [util.promisify(fs.writeFile)(path, data)].  The directory that holds the
    path is not looked at: the write of a file whose directory does not
    exist, which fails with [ENOENT], is not modelled, and the properties of
    a write that succeeds are stated for files that lie directly in the
    destination directory. *)
Definition writeFile (path data : string) : M unit :=
  fun w =>
    if bool_decide (path ∈ dirs (fs w)) then (Rejected EISDIR, w)
    else if bool_decide (path ∈ readonly (fs w)) then (Rejected EACCES, w)
    else (Fulfilled tt, withFiles (<[path := data]> (files (fs w))) w).

(** [fs.unlinkSync(path)]. *)
Definition unlinkSync (path : string) : M unit :=
  fun w =>
    match files (fs w) !! path with
    | None =>
        if bool_decide (path ∈ dirs (fs w)) then (Rejected EISDIR, w)
        else (Rejected ENOENT, w)
    | Some _ =>
        if bool_decide (path ∈ readonly (fs w)) then (Rejected EACCES, w)
        else (Fulfilled tt, withFiles (delete path (files (fs w))) w)
    end.

(** [util.promisify(fs.readFile)(path)]. *)
Definition readFile (path : string) : M string :=
  fun w =>
    match files (fs w) !! path with
    | Some data => (Fulfilled data, w)
    | None =>
        if bool_decide (path ∈ dirs (fs w)) then (Rejected EISDIR, w)
        else (Rejected ENOENT, w)
    end.

Fixpoint endsWithSlash (s : string) : bool :=
  match s with
  | EmptyString => false
  | String a EmptyString => bool_decide (a = "/"%char)
  | String _ s' => endsWithSlash s'
  end.

Fixpoint stripPrefix (p s : string) : option string :=
  match p, s with
  | EmptyString, _ => Some s
  | String a p', String b s' => if decide (a = b) then stripPrefix p' s' else None
  | String _ _, EmptyString => None
  end.

(** The name under which [path] is listed in the directory [dir], if it lies
    directly inside it. *)
Definition entryName (dir path : string) : option string :=
  match stripPrefix (if endsWithSlash dir then dir else dir +:+ "/") path with
  | Some name =>
      if bool_decide (name = EmptyString) || Js.occurs "/" name then None
      else Some name
  | None => None
  end.

(** [fs.readdirSync(path)]: the names of the files and directories directly
    inside the directory. *)
Definition readdirSync (path : string) : M (list string) :=
  fun w =>
    if bool_decide (path ∈ dirs (fs w)) then
      (Fulfilled (omap (entryName path)
                    (elements (dom (files (fs w)) ∪ dirs (fs w)))), w)
    else if bool_decide (is_Some (files (fs w) !! path)) then (Rejected ENOTDIR, w)
    else (Rejected ENOENT, w).

End Fs.

(** ** The plugin's configuration and the provider services *)

(** [strapi.plugins['config-sync'].config]. *)
Record Config : Type := mkConfig {
  include : list string;
  exclude : list string;
  destination : string;
  minify : bool
}.

(** The service of one config type, as the main service uses it: what
    [getAllFromDatabase()] settles to, and what [importSingle(name, content)]
    and [exportAll()] settle to. *)
Record Provider : Type := mkProvider {
  getAllFromDatabase : outcome (gmap string json);
  importSingle : string -> json -> outcome unit;
  exportAll : outcome unit
}.

(** The ambient [strapi] object: the configuration and the provider
    services by type, [strapi.plugins['config-sync'].services[type]].  A type
    without an entry has no provider service ([services[type]] is
    [undefined], or is a service without these methods, as [services.main]
    itself). *)
Record Strapi : Type := mkStrapi {
  config : Config;
  services : gmap string Provider
}.

(** [configType && configType !== type]: the entry is left out by the type
    filter.  [None] is [null]; the empty string is falsy as well. *)
Definition typeFiltered (configType : option string) (type : string) : bool :=
  match configType with
  | None => false
  | Some ct => negb (bool_decide (ct = EmptyString)) && negb (bool_decide (ct = type))
  end.

(** [Object.assign(target, source)] on dictionaries: the properties of
    [source] are written over those of [target]. *)
Definition Object_assign (target source : gmap string json) : gmap string json :=
  source ∪ target.

(** [Object.keys(o)] of an object given by its properties in order. *)
Definition Object_keys (o : list (string * json)) : list string := map fst o.

Section Main.

Context (strapi : Strapi).
(** [JSON.parse]: [None] when it throws. *)
Context (JSON_parse : string -> option json).
(** [require('../utils/getObjectDiff')]: the object of the differences
    between two snapshots, by its properties in order. *)
Context (difference : gmap string json -> gmap string json -> list (string * json)).

(** *** Calls into a provider service *)

Definition callGetAllFromDatabase (type : string) : M (gmap string json) :=
  match services strapi !! type with
  | None => throw TypeError
  | Some provider => fun w => (getAllFromDatabase provider, w)
  end.

Definition callImportSingle (type configName : string) (content : json) : M unit :=
  match services strapi !! type with
  | None => throw TypeError
  | Some provider =>
      fun w =>
        (importSingle provider configName content,
         mkWorld (fs w) (calls w ++ [ImportSingle type configName content]))
  end.

Definition callExportAll (type : string) : M unit :=
  match services strapi !! type with
  | None => throw TypeError
  | Some provider =>
      fun w => (exportAll provider, mkWorld (fs w) (calls w ++ [ExportAll type]))
  end.

(** *** The main service *)

(** The path of a config file:
    [`${destination}${configType}.${configName}.json`]. *)
Definition configPath (configType configName : string) : string :=
  destination (config strapi) +:+ configType +:+ "." +:+ configName +:+ ".json".

Definition writeConfigFile (configType configName : string) (fileContents : json)
  : M unit :=
  let shouldExclude :=
    Js.includes (exclude (config strapi)) (configType +:+ "." +:+ configName) in
  if shouldExclude then ret tt else
  let configName := encodeName configName in
  let json :=
    if negb (minify (config strapi)) then JSON.stringify fileContents 2
    else JSON.stringify fileContents 0 in
  let* dirExists := Fs.existsSync (destination (config strapi)) in
  (if negb dirExists then Fs.mkdirSync (destination (config strapi)) else ret tt) >>>
  catch (Fs.writeFile (configPath configType configName) json) (fun _ => ret tt).

Definition deleteConfigFile (configName : string) : M unit :=
  let shouldExclude := Js.includes (exclude (config strapi)) configName in
  if shouldExclude then ret tt else
  let configName := encodeName configName in
  Fs.unlinkSync (destination (config strapi) +:+ configName +:+ ".json").

Definition readConfigFile (configType configName : string) : M json :=
  let configName := encodeName configName in
  catch
    (let* data := Fs.readFile (configPath configType configName) in
     match JSON_parse data with
     | Some value => ret value
     | None => throw SyntaxError
     end)
    (fun _ => ret JNull).

Definition getAllConfigFromFiles (configType : option string) : M (gmap string json) :=
  let* dirExists := Fs.existsSync (destination (config strapi)) in
  if negb dirExists then ret ∅ else
  let* configFiles := Fs.readdirSync (destination (config strapi)) in
  promiseAllMap
    (fun file fileConfigs =>
       let type := Js.first (Js.split "." file) in
       match Js.splitRest file with
       | None => throw TypeError
       | Some rest =>
           let name := Js.join "." (Js.sliceInit (Js.split "." rest)) in
           let formattedName := formatName name in
           if typeFiltered configType type
              || negb (Js.includes (include (config strapi)) type)
              || Js.includes (exclude (config strapi)) (type +:+ "." +:+ name)
           then ret fileConfigs
           else
             let* fileContents := readConfigFile type name in
             ret (<[type +:+ "." +:+ formattedName := fileContents]> fileConfigs)
       end)
    configFiles ∅.

Definition getAllConfigFromDatabase (configType : option string)
  : M (gmap string json) :=
  promiseAllMap
    (fun type databaseConfigs =>
       if typeFiltered configType type then ret databaseConfigs else
       let* config := callGetAllFromDatabase type in
       ret (Object_assign config databaseConfigs))
    (include (config strapi)) ∅.

(** [getAllConfigFromDatabase] with the order in which the providers answer
    made explicit.  Line 144 runs after the [await] of line 143, so the
    callbacks merge their entries in the order in which the promises of
    [getAllFromDatabase] resolve: [resolved] lists the included types in that
    order.  [getAllConfigFromDatabase] is the case of providers that answer
    in the order in which they were asked, the order of the include list. *)
Definition getAllConfigFromDatabase_resolving
    (resolved : list string) (configType : option string) : M (gmap string json) :=
  promiseAllMap
    (fun type databaseConfigs =>
       if typeFiltered configType type then ret databaseConfigs else
       let* config := callGetAllFromDatabase type in
       ret (Object_assign config databaseConfigs))
    resolved ∅.

Definition importSingleConfig (configType configName : string) : M unit :=
  let shouldExclude :=
    Js.includes (exclude (config strapi)) (configType +:+ "." +:+ configName) in
  if shouldExclude then ret tt else
  let* fileContents := readConfigFile configType configName in
  callImportSingle configType configName fileContents.

(** [importSingleConfig(type, undefined)], as [importAllConfig] calls it for
    a key with nothing after its first ['.']: the name is spelled
    [undefined] in the exclusion check, and [readConfigFile] throws on it. *)
Definition importSingleConfig_undefined (configType : string) : M unit :=
  let shouldExclude :=
    Js.includes (exclude (config strapi)) (configType +:+ "." +:+ "undefined") in
  if shouldExclude then ret tt else throw TypeError.

(** The two snapshots that [importAllConfig] reads and hands to
    [difference]: the files' and the database's. *)
Definition importAllConfig_snapshots (configType : option string)
  : M (gmap string json * gmap string json) :=
  let* fileConfig := getAllConfigFromFiles None in
  let* databaseConfig := getAllConfigFromDatabase None in
  ret (fileConfig, databaseConfig).

(** The callback of [Object.keys(diff).map] in [importAllConfig]; the call of
    [importSingleConfig] is not awaited. *)
Definition importDiffKey (configType : option string) (file : string) : M unit :=
  let type := Js.first (Js.split "." file) in
  let name := Js.splitRest file in
  if typeFiltered configType type then ret tt
  else
    detach
      match name with
      | Some name => importSingleConfig type name
      | None => importSingleConfig_undefined type
      end.

Fixpoint forEach (f : string -> M unit) (l : list string) : M unit :=
  match l with
  | [] => ret tt
  | x :: xs => f x >>> forEach f xs
  end.

Definition importAllConfig (configType : option string) : M unit :=
  let* snapshots := importAllConfig_snapshots configType in
  let fileConfig := fst snapshots in
  let databaseConfig := snd snapshots in
  let diff := difference databaseConfig fileConfig in
  forEach (importDiffKey configType) (Object_keys diff).

(** [importAllConfig] with the order in which the providers answer made
    explicit: the snapshot of the database is the one that
    [getAllConfigFromDatabase] builds when the promises of the providers
    resolve in the order [resolved].  [importAllConfig] is the case of the
    order of the include list. *)
Definition importAllConfig_resolving (resolved : list string) (configType : option string)
  : M unit :=
  let* fileConfig := getAllConfigFromFiles None in
  let* databaseConfig := getAllConfigFromDatabase_resolving resolved None in
  let diff := difference databaseConfig fileConfig in
  forEach (importDiffKey configType) (Object_keys diff).

Definition exportAllConfig (configType : option string) : M unit :=
  promiseAllMap
    (fun type _ =>
       if typeFiltered configType type then ret tt else callExportAll type)
    (include (config strapi)) tt.

Definition exportSingleConfig (configType configName : string) : M unit :=
  ret tt.

End Main.

(** ** Vocabulary of the properties *)

(** Something, a file or a directory, exists at [path]. *)
Definition pathExists (path : string) (w : World) : Prop :=
  is_Some (files (fs w) !! path) \/ path ∈ dirs (fs w).

(** The string holds no line terminator. *)
Definition singleLine (s : string) : bool :=
  negb (Js.occurs "010" s) && negb (Js.occurs "013" s).

(** The exclusion check of the single-entry operations:
    [config.exclude.includes(key)]. *)
Definition excluded (strapi : Strapi) (key : string) : bool :=
  Js.includes (exclude (config strapi)) key.

(** Lines 34 to 36 of [writeConfigFile]: the destination directory is
    created when nothing exists at its path. *)
Definition ensureDestination (strapi : Strapi) : M unit :=
  let* dirExists := Fs.existsSync (destination (config strapi)) in
  if negb dirExists then Fs.mkdirSync (destination (config strapi)) else ret tt.

(** The text that [writeConfigFile] writes. *)
Definition fileText (strapi : Strapi) (fileContents : json) : string :=
  JSON.stringify fileContents (if minify (config strapi) then 0 else 2)%nat.





(** From [w] to [w'] the files are unchanged, and the provider operations
    invoked are calls of [importSingle] of the provider of [configType]. *)
Definition onlyImports (configType : string) (w w' : World) : Prop :=
  fs w' = fs w
  /\ exists new,
       calls w' = calls w ++ new
       /\ Forall (fun c => exists name content, c = ImportSingle configType name content) new.

(** What [readConfigFile] returns for the text of a file, [None] when there
    is no file: the parsed text, and [null] when there is no file or the
    text is not JSON. *)
Definition fileValue (JSON_parse : string -> option json) (text : option string) : json :=
  match text with
  | Some data => default JNull (JSON_parse data)
  | None => JNull
  end.

(** The provider operation that [importAllConfig] invokes for one key of the
    diff, if any: none for a key of another type than the filter's, for a
    key with nothing after its first ['.'], for an excluded pair and for a
    type without provider; otherwise [importSingle] with the name and with
    what the file of the pair holds. *)
Definition importedCall (strapi : Strapi) (JSON_parse : string -> option json)
    (configType : option string) (fileSystem : FS) (key : string) : option call :=
  let type := Js.first (Js.split "." key) in
  if typeFiltered configType type then None
  else
    match Js.splitRest key with
    | None => None
    | Some name =>
        if excluded strapi (type +:+ "." +:+ name) then None
        else
          match services strapi !! type with
          | None => None
          | Some _ =>
              Some (ImportSingle type name
                      (fileValue JSON_parse
                         (files fileSystem !! configPath strapi type (encodeName name))))
          end
    end.

(** ** Scenarios *)

(** [JSON.parse] on the texts that the files of the scenarios hold. *)
Definition JSON_parse_scenario (text : string) : option json :=
  if decide (text = "{}") then Some (JObj [])
  else if decide (text = "null") then Some JNull
  else None.

(** An instance of [difference] for the scenarios: the entries of the files
    that the database lacks. *)
Definition difference_scenario (databaseConfig fileConfig : gmap string json)
  : list (string * json) :=
  map_to_list (fileConfig ∖ databaseConfig).

(** An instance of [difference] that tells what it was given: it reports the
    key [user-role.seen] when the snapshot of the files that it receives holds
    the entry [core-store.settings], and nothing otherwise. *)
Definition difference_probe (databaseConfig fileConfig : gmap string json)
  : list (string * json) :=
  if bool_decide (is_Some (fileConfig !! "core-store.settings"))
  then [("user-role.seen", JNull)] else [].

(** A provider whose database holds [db] and whose operations succeed. *)
Definition providerOf (db : gmap string json) : Provider :=
  mkProvider (Fulfilled db) (fun _ _ => Fulfilled tt) (Fulfilled tt).

(** Two managed types and one excluded entry, whose name has colons; both
    providers list an entry under the key [user-role.public]. *)
Definition strapi_sync : Strapi :=
  mkStrapi
    (mkConfig ["user-role"; "core-store"] ["core-store.types::page"] "config/sync/" false)
    {[ "user-role" := providerOf {[ "user-role.public" := JNum 1 ]};
       "core-store" := providerOf {[ "user-role.public" := JNum 2 ]} ]}.


(** The same as [strapi_sync], with an excluded entry whose name has no
    colon. *)
Definition strapi_plain : Strapi :=
  mkStrapi
    (mkConfig ["user-role"; "core-store"] ["core-store.settings"] "config/sync/" false)
    (services strapi_sync).

(** A destination directory with three config files, one of which cannot be
    modified. *)
Definition world_sync : World :=
  mkWorld
    (mkFS {[ "config/sync/user-role.public.json" := "{}";
             "config/sync/core-store.types##page.json" := "{}";
             "config/sync/core-store.settings.json" := "{}" ]}
          {[ "config/sync/" ]}
          {[ "config/sync/user-role.public.json" ]})
    [].

(** A destination directory that holds a file without extension beside a
    config file. *)
Definition world_readme : World :=
  mkWorld
    (mkFS {[ "config/sync/user-role.public.json" := "{}";
             "config/sync/README" := "Config files." ]}
          {[ "config/sync/" ]} ∅)
    [].

(** No file and no directory. *)
Definition world_empty : World := mkWorld (mkFS ∅ ∅ ∅) [].

(** The same as [strapi_sync], without a provider service for [core-store]. *)
Definition strapi_partial : Strapi :=
  mkStrapi (config strapi_sync)
    {[ "user-role" := providerOf {[ "user-role.public" := JNum 1 ]} ]}.

(** ** Proof automation *)

(** Evaluates a decidable proposition. *)
Ltac by_evaluation :=
  match goal with
  | |- ?P => apply (bool_decide_eq_true_1 P); vm_compute; reflexivity
  end.

(** * Properties *)

(** ** Examples of the primitives *)

Example encodeName_api : encodeName "api::foo.bar" = "api##foo.bar".
Proof. reflexivity. Qed.

Example splitRest_ex : Js.splitRest "a.b.c.json" = Some "b.c.json".
Proof. reflexivity. Qed.

Example stringify_pretty :
  JSON.stringify (JObj [("a", JNum 1); ("b", JArr [JBool true; JNull])]) 2
  = String.concat (String "010" EmptyString)
      ["{"; "  " +:+ JSON.quote "a" +:+ ": 1,"; "  " +:+ JSON.quote "b" +:+ ": [";
       "    true,"; "    null"; "  ]"; "}"].
Proof. reflexivity. Qed.

Example stringify_compact :
  JSON.stringify (JObj [("a", JNum 1); ("b", JArr [JBool true; JNull])]) 0
  = "{" +:+ JSON.quote "a" +:+ ":1," +:+ JSON.quote "b" +:+ ":[true,null]}".
Proof. reflexivity. Qed.

(** ** The key codec *)

Lemma replaceAll_inverse (c d : ascii) (s : string) :
  Js.occurs d s = false ->
  Js.replaceAll d c (Js.replaceAll c d s) = s.
Proof.
  induction s as [|a s IH]; simpl; [done|].
  intros [Ha Hs]%orb_false_elim. apply bool_decide_eq_false in Ha.
  rewrite (IH Hs). f_equal.
  destruct (decide (a = c)) as [->|Hac].
  - by rewrite decide_True.
  - by rewrite decide_False.
Qed.

Lemma replaceAll_absent (c d : ascii) (s : string) :
  Js.occurs c s = false -> Js.replaceAll c d s = s.
Proof.
  induction s as [|a s IH]; simpl; [done|].
  intros [Ha Hs]%orb_false_elim. apply bool_decide_eq_false in Ha.
  by rewrite (IH Hs), decide_False.
Qed.

Lemma occurs_replaceAll_target (c d : ascii) (s : string) :
  Js.occurs d (Js.replaceAll c d s) = false -> Js.occurs c s = false.
Proof.
  induction s as [|a s IH]; simpl; [done|].
  intros [Ha Hs]%orb_false_elim. apply bool_decide_eq_false in Ha.
  rewrite (IH Hs), orb_false_r. apply bool_decide_eq_false.
  intros ->. by rewrite decide_True in Ha.
Qed.

Lemma occurs_app (c : ascii) (s t : string) :
  Js.occurs c (s +:+ t) = Js.occurs c s || Js.occurs c t.
Proof.
  induction s as [|a s IH]; simpl; [done|].
  change (String a s +:+ t) with (String a (s +:+ t)). simpl.
  by rewrite IH, orb_assoc.
Qed.

(** C2, as amended.  For a name without ['#'], replacing every [':'] by
    ['#'] (as [writeConfigFile] and [readConfigFile] do before they build the
    path) and then every ['#'] by [':'] (as [getAllConfigFromFiles] does on
    the name taken from the file name) gives the name back; and the name
    [api::foo.bar] is written as [api##foo.bar]: the colons are replaced, the
    ['.'] stays. *)
Theorem formatName_encodeName (name : string) :
  Js.occurs "#" name = false ->
  formatName (encodeName name) = name
  /\ encodeName "api::foo.bar" = "api##foo.bar".
Proof.
  intros Hname. split; [|reflexivity].
  by apply replaceAll_inverse.
Qed.

Lemma formatName_encodeName_witness :
  Js.occurs "#" "api::foo.bar" = false
  /\ formatName (encodeName "api::foo.bar") = "api::foo.bar"
  /\ encodeName "api::foo.bar" = "api##foo.bar".
Proof.
  split; [reflexivity|].
  apply (formatName_encodeName "api::foo.bar"). reflexivity.
Defined.

(** C2, as stated, fails on its example: [api::foo.bar] is not written as
    [api::foo#bar]. *)
Lemma encodeName_api_not_as_stated :
  encodeName "api::foo.bar" <> "api::foo#bar".
Proof. discriminate. Qed.

(** A name with ['#'] of its own does not survive the round trip. *)
Example formatName_encodeName_hash :
  formatName (encodeName "a#b") = "a:b".
Proof. reflexivity. Qed.

(** ** File names *)

Lemma split_nonempty (c : ascii) (s : string) : Js.split c s <> [].
Proof.
  destruct s as [|a s]; simpl; [done|].
  destruct (decide (a = c)); [done|]. by destruct (Js.split c s).
Qed.

Lemma split_app_sep (c : ascii) (s u : string) :
  Js.split c (s +:+ String c u) = Js.split c s ++ Js.split c u.
Proof.
  induction s as [|a s IH]; simpl.
  - change (EmptyString +:+ String c u) with (String c u). simpl.
    by rewrite decide_True.
  - change (String a s +:+ String c u) with (String a (s +:+ String c u)). simpl.
    rewrite IH. destruct (decide (a = c)); [done|].
    pose proof (split_nonempty c s). by destruct (Js.split c s).
Qed.

Lemma join_cons_char (sep : string) (a : ascii) (w : string) (ws : list string) :
  Js.join sep (String a w :: ws) = String a (Js.join sep (w :: ws)).
Proof. by destruct ws. Qed.

Lemma join_split (c : ascii) (s : string) :
  Js.join (String c EmptyString) (Js.split c s) = s.
Proof.
  induction s as [|a s IH]; simpl; [done|].
  pose proof (split_nonempty c s) as Hne.
  destruct (decide (a = c)) as [->|Hac].
  - destruct (Js.split c s) as [|w ws]; [done|].
    change (Js.join (String c EmptyString) (EmptyString :: w :: ws))
      with (String c (Js.join (String c EmptyString) (w :: ws))).
    by rewrite IH.
  - destruct (Js.split c s) as [|w ws]; [done|].
    by rewrite join_cons_char, IH.
Qed.

Lemma split_absent (c : ascii) (s : string) :
  Js.occurs c s = false -> Js.split c s = [s].
Proof.
  induction s as [|a s IH]; simpl; [done|].
  intros [Ha Hs]%orb_false_elim. apply bool_decide_eq_false in Ha.
  by rewrite decide_False, (IH Hs).
Qed.

Lemma first_split_app_sep (c : ascii) (s u : string) :
  Js.occurs c s = false ->
  Js.first (Js.split c (s +:+ String c u)) = s.
Proof.
  intros Hs. by rewrite split_app_sep, (split_absent _ _ Hs).
Qed.

Lemma dotPlus_singleLine (s : string) : singleLine s = true -> Js.dotPlus s = s.
Proof.
  unfold singleLine. induction s as [|a s IH]; simpl; [done|].
  intros [[Hn Hsn]%negb_true_iff%orb_false_elim [Hr Hsr]%negb_true_iff%orb_false_elim]%andb_true_iff.
  unfold Js.isLineTerminator. rewrite Hn, Hr. simpl.
  rewrite IH; [done|]. by rewrite Hsn, Hsr.
Qed.

Lemma singleLine_app (s t : string) :
  singleLine (s +:+ t) = singleLine s && singleLine t.
Proof.
  unfold singleLine. rewrite !occurs_app, !negb_orb.
  destruct (Js.occurs "010" s), (Js.occurs "013" s), (Js.occurs "010" t); done.
Qed.

Lemma singleLine_replaceAll (c d : ascii) (s : string) :
  singleLine (String d EmptyString) = true ->
  singleLine s = true -> singleLine (Js.replaceAll c d s) = true.
Proof.
  intros Hd. induction s as [|a s IH]; simpl; [done|].
  change (String a s) with (String a EmptyString +:+ s).
  change (String (if decide (a = c) then d else a) (Js.replaceAll c d s))
    with (String (if decide (a = c) then d else a) EmptyString +:+ Js.replaceAll c d s).
  rewrite !singleLine_app. intros [Ha Hs]%andb_true_iff.
  rewrite (IH Hs), andb_true_r. by destruct (decide (a = c)).
Qed.

Lemma splitRest_app_sep (s u : string) :
  Js.occurs "." s = false -> singleLine u = true -> u <> EmptyString ->
  Js.splitRest (s +:+ String "." u) = Some u.
Proof.
  intros Hs Hu Hne. induction s as [|a s IH].
  - change (EmptyString +:+ String "." u) with (String "."%char u). simpl.
    rewrite (dotPlus_singleLine _ Hu). by destruct u.
  - change (String a s +:+ String "." u) with (String a (s +:+ String "." u)).
    simpl in *. apply orb_false_elim in Hs as [Ha Hs].
    apply bool_decide_eq_false in Ha. rewrite decide_False by done. by apply IH.
Qed.

Lemma removelast_snoc (l : list string) (x : string) : removelast (l ++ [x]) = l.
Proof. apply removelast_last. Qed.

Lemma first_split_no_sep (c : ascii) (s : string) :
  Js.occurs c (Js.first (Js.split c s)) = false.
Proof.
  induction s as [|a s IH]; simpl; [done|].
  destruct (decide (a = c)) as [->|Hac]; [done|].
  pose proof (split_nonempty c s).
  destruct (Js.split c s) as [|w ws]; [done|].
  change (Js.first (String a w :: ws)) with (String a w).
  change (Js.first (w :: ws)) with w in IH. simpl.
  by rewrite IH, (bool_decide_eq_false_2 _ Hac).
Qed.

(** X3.  The file name round trip.  For a type without ['.'] and a name
    without ['#'] and without line terminators, [getAllConfigFromFiles]
    recovers the type and the name from the name of the file that
    [writeConfigFile] writes for them, [type.encodedName.json]. *)
Theorem fileName_roundtrip (type name : string) :
  Js.occurs "." type = false ->
  Js.occurs "#" name = false ->
  singleLine name = true ->
  let file := type +:+ "." +:+ encodeName name +:+ ".json" in
  Js.first (Js.split "." file) = type
  /\ exists rest,
       Js.splitRest file = Some rest
       /\ formatName (Js.join "." (Js.sliceInit (Js.split "." rest))) = name.
Proof.
  intros Htype Hname Hline file. subst file. split.
  - change ("." +:+ encodeName name +:+ ".json")
      with (String "."%char (encodeName name +:+ ".json")).
    by apply first_split_app_sep.
  - exists (encodeName name +:+ ".json"). split.
    + change ("." +:+ encodeName name +:+ ".json")
        with (String "."%char (encodeName name +:+ ".json")).
      apply splitRest_app_sep; [done| |].
      * rewrite singleLine_app. unfold encodeName.
        by rewrite singleLine_replaceAll.
      * by destruct (encodeName name).
    + change (encodeName name +:+ ".json")
        with (encodeName name +:+ String "."%char "json").
      rewrite split_app_sep. unfold Js.sliceInit.
      change (Js.split "." "json") with ["json"].
      rewrite removelast_snoc.
      change "." with (String "."%char EmptyString) at 1.
      rewrite join_split. by apply replaceAll_inverse.
Qed.

Lemma fileName_roundtrip_witness :
  Js.first (Js.split "." "core-store.api##page.page.json") = "core-store"
  /\ exists rest,
       Js.splitRest "core-store.api##page.page.json" = Some rest
       /\ formatName (Js.join "." (Js.sliceInit (Js.split "." rest))) = "api::page.page".
Proof.
  apply (fileName_roundtrip "core-store" "api::page.page"); reflexivity.
Defined.

(** A name with a line terminator is not recovered. *)
Example fileName_line_terminator :
  Js.splitRest ("core-store." +:+ String "a" (String "010" "b") +:+ ".json") = Some "a".
Proof. reflexivity. Qed.

(** ** Single-entry operations *)

Lemma existsSync_spec (path : string) (w : World) :
  Fs.existsSync path w = (Fulfilled (bool_decide (pathExists path w)), w).
Proof.
  unfold Fs.existsSync, pathExists. f_equal. f_equal.
  destruct (decide (is_Some (files (fs w) !! path))) as [Hf|Hf];
    destruct (decide (path ∈ dirs (fs w))) as [Hd|Hd].
  - rewrite !bool_decide_eq_true_2; tauto.
  - rewrite (bool_decide_eq_true_2 _ Hf), (bool_decide_eq_false_2 _ Hd).
    rewrite bool_decide_eq_true_2; tauto.
  - rewrite (bool_decide_eq_false_2 _ Hf), (bool_decide_eq_true_2 _ Hd).
    rewrite bool_decide_eq_true_2; tauto.
  - rewrite (bool_decide_eq_false_2 _ Hf), (bool_decide_eq_false_2 _ Hd).
    rewrite bool_decide_eq_false_2; tauto.
Qed.

Section SingleEntry.

Context (strapi : Strapi) (JSON_parse : string -> option json).

Lemma writeConfigFile_excluded (configType configName : string) (c : json) (w : World) :
  excluded strapi (configType +:+ "." +:+ configName) = true ->
  writeConfigFile strapi configType configName c w = (Fulfilled tt, w).
Proof. unfold writeConfigFile, excluded. by intros ->. Qed.

Lemma importSingleConfig_excluded (configType configName : string) (w : World) :
  excluded strapi (configType +:+ "." +:+ configName) = true ->
  importSingleConfig strapi JSON_parse configType configName w = (Fulfilled tt, w).
Proof. unfold importSingleConfig, excluded. by intros ->. Qed.

Lemma deleteConfigFile_excluded (key : string) (w : World) :
  excluded strapi key = true ->
  deleteConfigFile strapi key w = (Fulfilled tt, w).
Proof. unfold deleteConfigFile, excluded. by intros ->. Qed.

(** X1.  The single-entry operations on an excluded pair do nothing: each
    of [writeConfigFile], [importSingleConfig] and [deleteConfigFile] is
    fulfilled and leaves the files and the log of provider operations as
    they were. *)
Theorem excluded_operations_noop
    (configType configName : string) (fileContents : json) (w : World) :
  excluded strapi (configType +:+ "." +:+ configName) = true ->
  writeConfigFile strapi configType configName fileContents w = (Fulfilled tt, w)
  /\ importSingleConfig strapi JSON_parse configType configName w = (Fulfilled tt, w)
  /\ deleteConfigFile strapi (configType +:+ "." +:+ configName) w = (Fulfilled tt, w).
Proof.
  intros Hex. split; [|split].
  - by apply writeConfigFile_excluded.
  - by apply importSingleConfig_excluded.
  - by apply deleteConfigFile_excluded.
Qed.

Lemma readConfigFile_absent (configType configName : string) (w : World) :
  files (fs w) !! configPath strapi configType (encodeName configName) = None ->
  readConfigFile strapi JSON_parse configType configName w = (Fulfilled JNull, w).
Proof.
  intros Hnone. unfold readConfigFile, catch, bind, Fs.readFile.
  rewrite Hnone. by case_bool_decide.
Qed.

(** C7.  When there is no file at the path
    [destination ++ type ++ "." ++ encoded name ++ ".json"], [readConfigFile]
    is fulfilled with [null]: the error of the read is caught, and the world
    is left as it was. *)
Theorem readConfigFile_missing (configType configName : string) (w : World) :
  files (fs w) !! (destination (config strapi) +:+ configType +:+ "."
                   +:+ encodeName configName +:+ ".json") = None ->
  readConfigFile strapi JSON_parse configType configName w = (Fulfilled JNull, w).
Proof. apply readConfigFile_absent. Qed.

(** [readConfigFile] never rejects and never changes the world. *)
Lemma readConfigFile_total (configType configName : string) (w : World) :
  exists v, readConfigFile strapi JSON_parse configType configName w = (Fulfilled v, w).
Proof.
  unfold readConfigFile, catch, bind, Fs.readFile.
  destruct (files (fs w) !! _) as [data|].
  - destruct (JSON_parse data); eauto.
  - case_bool_decide; eauto.
Qed.

(** C9.  [exportSingleConfig] has an empty body: it is fulfilled and leaves
    the files and the log of provider operations as they were. *)
Theorem exportSingleConfig_no_effect (configType configName : string) (w : World) :
  exportSingleConfig configType configName w = (Fulfilled tt, w).
Proof. reflexivity. Qed.

(** C10.  For a pair that is not excluded and whose config file does not
    exist, [importSingleConfig] still calls [importSingle] of the type's
    provider, with the name and the content [null]; it settles as that call
    does. *)
Theorem importSingleConfig_missing_file
    (configType configName : string) (provider : Provider) (w : World) :
  excluded strapi (configType +:+ "." +:+ configName) = false ->
  files (fs w) !! configPath strapi configType (encodeName configName) = None ->
  services strapi !! configType = Some provider ->
  importSingleConfig strapi JSON_parse configType configName w
  = (importSingle provider configName JNull,
     mkWorld (fs w) (calls w ++ [ImportSingle configType configName JNull])).
Proof.
  intros Hex Hnone Hprov. unfold importSingleConfig, excluded in *.
  rewrite Hex. unfold bind.
  rewrite (readConfigFile_absent _ _ _ Hnone).
  unfold callImportSingle. by rewrite Hprov.
Qed.

End SingleEntry.

(** ** Reading the snapshots *)

Lemma promiseAllMap_invariant {A S} (P : S -> Prop) (body : A -> S -> M S) (l : list A) :
  (forall x s w s' w', P s -> body x s w = (Fulfilled s', w') -> P s') ->
  forall s w s' w',
    P s -> promiseAllMap body l s w = (Fulfilled s', w') -> P s'.
Proof.
  intros Hbody. induction l as [|x l IH]; simpl; intros s w s' w' Hs Hrun.
  - unfold ret in Hrun. by simplify_eq.
  - destruct (body x s w) as [[s1|e] w1] eqn:Hx; [|done].
    eapply IH; [|exact Hrun]. eauto.
Qed.

Lemma promiseAllMap_world {A S} (body : A -> S -> M S) (l : list A) :
  (forall x s w, snd (body x s w) = w) ->
  forall s w, snd (promiseAllMap body l s w) = w.
Proof.
  intros Hbody. induction l as [|x l IH]; simpl; intros s w; [done|].
  specialize (Hbody x s w).
  destruct (body x s w) as [[s1|e] w1]; simpl in *; subst w1; apply IH.
Qed.

Lemma promiseAllMap_fulfilled {A S} (body : A -> S -> M S) (l : list A) :
  (forall x s w, x ∈ l -> exists s', body x s w = (Fulfilled s', w)) ->
  forall s w, exists s', promiseAllMap body l s w = (Fulfilled s', w).
Proof.
  induction l as [|x l IH]; simpl; intros Hbody s w.
  - by exists s.
  - destruct (Hbody x s w) as [s1 ->]; [by left|].
    apply IH. intros y s2 w2 Hy. apply Hbody. by right.
Qed.

Lemma promiseAllMap_reaches {A S} (P : S -> Prop) (body : A -> S -> M S)
    (l : list A) (x : A) :
  x ∈ l ->
  (forall s w s' w', body x s w = (Fulfilled s', w') -> P s') ->
  (forall y s w s' w', P s -> body y s w = (Fulfilled s', w') -> P s') ->
  forall s w s' w', promiseAllMap body l s w = (Fulfilled s', w') -> P s'.
Proof.
  intros Hx Hhere Hkeep. induction l as [|y l IH]; [by apply elem_of_nil in Hx|].
  simpl. intros s w s' w' Hrun.
  destruct (body y s w) as [[s1|e] w1] eqn:Hy; [|done].
  apply elem_of_cons in Hx as [->|Hx].
  - eapply (promiseAllMap_invariant P); [exact Hkeep| |exact Hrun]. eauto.
  - eauto.
Qed.

Lemma promiseAllMap_rejected {A S} (body : A -> S -> M S) (l : list A) (x : A)
    (e : error) :
  x ∈ l ->
  (forall s w, exists w', body x s w = (Rejected e, w')) ->
  (forall y s w e' w', body y s w = (Rejected e', w') -> e' = e) ->
  forall s w, fst (promiseAllMap body l s w) = Rejected e.
Proof.
  intros Hx Hhere Hsame. induction l as [|y l IH]; [by apply elem_of_nil in Hx|].
  simpl. intros s w.
  destruct (body y s w) as [[s1|e'] w1] eqn:Hy.
  - apply elem_of_cons in Hx as [->|Hx]; [|by apply IH].
    destruct (Hhere s w) as [w' Hrej]. congruence.
  - simpl. f_equal. by eapply Hsame.
Qed.

Section Snapshots.

Context (strapi : Strapi) (JSON_parse : string -> option json).

(** C6.  When nothing exists at the destination path, [getAllConfigFromFiles]
    is fulfilled with the empty object, whatever the type filter, and leaves
    the world as it was. *)
Theorem getAllConfigFromFiles_no_destination (configType : option string) (w : World) :
  ~ pathExists (destination (config strapi)) w ->
  getAllConfigFromFiles strapi JSON_parse configType w = (Fulfilled ∅, w).
Proof.
  intros Hnone. unfold getAllConfigFromFiles, bind.
  rewrite existsSync_spec. by rewrite bool_decide_eq_false_2.
Qed.

(** X2.  An excluded key without [':'] is in no snapshot of the files,
    whatever the destination directory holds. *)
Theorem getAllConfigFromFiles_excluded_plain
    (configType : option string) (key : string) (w w' : World) (m : gmap string json) :
  excluded strapi key = true ->
  Js.occurs ":" key = false ->
  getAllConfigFromFiles strapi JSON_parse configType w = (Fulfilled m, w') ->
  m !! key = None.
Proof.
  intros Hex Hplain. unfold getAllConfigFromFiles, bind.
  rewrite existsSync_spec.
  destruct (bool_decide (pathExists _ w)); simpl.
  2:{ unfold ret. intros ?; simplify_eq. apply lookup_empty. }
  destruct (Fs.readdirSync _ w) as [[configFiles|e] w1]; [|done].
  apply (promiseAllMap_invariant (fun s : gmap string json => s !! key = None));
    [|apply lookup_empty].
  intros file s w2 s' w2' Hs.
  destruct (Js.splitRest file) as [rest|]; [|done].
  set (type := Js.first (Js.split "." file)).
  set (name := Js.join "." (Js.sliceInit (Js.split "." rest))).
  destruct (typeFiltered configType type || _ || _) eqn:Hskip.
  { unfold ret. intros ?; by simplify_eq. }
  apply orb_false_elim in Hskip as [_ Hnot].
  unfold bind.
  destruct (readConfigFile_total strapi JSON_parse type name w2) as [v ->].
  unfold ret. intros ?; simplify_eq.
  rewrite lookup_insert_ne; [done|].
  intros Hkey. rewrite <- Hkey in Hplain, Hex.
  rewrite !occurs_app in Hplain.
  apply orb_false_elim in Hplain as [_ [_ Hname]%orb_false_elim].
  unfold formatName in *.
  apply occurs_replaceAll_target in Hname.
  rewrite (replaceAll_absent _ _ _ Hname) in Hex.
  unfold excluded in Hex. congruence.
Qed.

(** [getAllConfigFromFiles] is fulfilled when every entry of the destination
    directory has a ['.'] that is followed by a character of its line. *)
Lemma getAllConfigFromFiles_fulfilled
    (configType : option string) (configFiles : list string) (w : World) :
  Fs.readdirSync (destination (config strapi)) w = (Fulfilled configFiles, w) ->
  Forall (fun file => is_Some (Js.splitRest file)) configFiles ->
  exists m, getAllConfigFromFiles strapi JSON_parse configType w = (Fulfilled m, w).
Proof.
  intros Hdir Hall. unfold getAllConfigFromFiles, bind.
  rewrite existsSync_spec.
  destruct (bool_decide _); simpl; [|by eexists].
  rewrite Hdir. apply promiseAllMap_fulfilled.
  intros file s w1 Hfile.
  rewrite Forall_forall in Hall. destruct (Hall file Hfile) as [rest ->].
  destruct (_ || _ || _); [by eexists|].
  unfold bind.
  destruct (readConfigFile_total strapi JSON_parse
              (Js.first (Js.split "." file))
              (Js.join "." (Js.sliceInit (Js.split "." rest))) w1) as [v ->].
  by eexists.
Qed.

(** The snapshot of the files holds the key of every entry of the directory
    that passes the three checks of line 111 to 115; the key is built from
    the name with ['#'] replaced, the exclusion check reads the name as the
    file spells it. *)
Lemma getAllConfigFromFiles_lists
    (configType : option string) (configFiles : list string) (file rest : string)
    (w w' : World) (m : gmap string json) :
  let type := Js.first (Js.split "." file) in
  let name := Js.join "." (Js.sliceInit (Js.split "." rest)) in
  Fs.readdirSync (destination (config strapi)) w = (Fulfilled configFiles, w) ->
  file ∈ configFiles ->
  Js.splitRest file = Some rest ->
  typeFiltered configType type = false ->
  Js.includes (include (config strapi)) type = true ->
  excluded strapi (type +:+ "." +:+ name) = false ->
  getAllConfigFromFiles strapi JSON_parse configType w = (Fulfilled m, w') ->
  is_Some (m !! (type +:+ "." +:+ formatName name)).
Proof.
  intros type name Hdir Hfile Hrest Hfilter Hinc Hex.
  assert (pathExists (destination (config strapi)) w) as Hexists.
  { right. revert Hdir. unfold Fs.readdirSync. by repeat case_bool_decide. }
  unfold getAllConfigFromFiles, bind. rewrite existsSync_spec.
  rewrite (bool_decide_eq_true_2 _ Hexists). simpl.
  rewrite Hdir.
  apply (promiseAllMap_reaches
           (fun s : gmap string json => is_Some (s !! (type +:+ "." +:+ formatName name)))
           _ _ file Hfile).
  - intros s w1 s' w1'. rewrite Hrest. fold type name.
    unfold excluded in Hex. rewrite Hfilter, Hinc, Hex. simpl.
    unfold bind. destruct (readConfigFile_total strapi JSON_parse type name w1) as [v ->].
    unfold ret. intros ?; simplify_eq. rewrite lookup_insert_eq. by eexists.
  - intros y s w1 s' w1' Hs.
    destruct (Js.splitRest y) as [rest'|]; [|done].
    destruct (_ || _ || _).
    { unfold ret. intros ?; by simplify_eq. }
    unfold bind.
    destruct (readConfigFile_total strapi JSON_parse
                (Js.first (Js.split "." y))
                (Js.join "." (Js.sliceInit (Js.split "." rest'))) w1) as [v ->].
    unfold ret. intros ?; simplify_eq.
    rewrite lookup_insert. case_decide; [by eexists|done].
Qed.

(** X4.  Every key of the snapshot of the files belongs to a type of the
    include list that the type filter lets pass. *)
Theorem getAllConfigFromFiles_included_types
    (configType : option string) (key : string) (w w' : World) (m : gmap string json) :
  getAllConfigFromFiles strapi JSON_parse configType w = (Fulfilled m, w') ->
  is_Some (m !! key) ->
  Js.includes (include (config strapi)) (Js.first (Js.split "." key)) = true
  /\ typeFiltered configType (Js.first (Js.split "." key)) = false.
Proof.
  intros Hrun. revert key.
  revert Hrun. unfold getAllConfigFromFiles, bind. rewrite existsSync_spec.
  destruct (bool_decide (pathExists _ w)); simpl.
  2:{ unfold ret. intros [= <- <-] key [v Hv]. by rewrite lookup_empty in Hv. }
  destruct (Fs.readdirSync _ w) as [[configFiles|e] w1]; [|done].
  apply (promiseAllMap_invariant
           (fun s : gmap string json =>
              forall key, is_Some (s !! key) ->
                Js.includes (include (config strapi)) (Js.first (Js.split "." key)) = true
                /\ typeFiltered configType (Js.first (Js.split "." key)) = false)).
  2:{ intros key [v Hv]. by rewrite lookup_empty in Hv. }
  intros file s w2 s' w2' Hs.
  destruct (Js.splitRest file) as [rest|]; [|done].
  set (type := Js.first (Js.split "." file)).
  set (name := Js.join "." (Js.sliceInit (Js.split "." rest))).
  destruct (typeFiltered configType type) eqn:Hfilter; simpl.
  { unfold ret. intros ?; by simplify_eq. }
  destruct (Js.includes (include (config strapi)) type) eqn:Hinc; simpl.
  2:{ unfold ret. intros ?; by simplify_eq. }
  destruct (Js.includes (exclude (config strapi)) _); simpl.
  { unfold ret. intros ?; by simplify_eq. }
  unfold bind.
  destruct (readConfigFile_total strapi JSON_parse type name w2) as [v ->].
  unfold ret. intros ? key; simplify_eq.
  rewrite lookup_insert. case_decide as Hkey; [|apply Hs].
  intros _. subst key.
  change ("." +:+ formatName name) with (String "."%char (formatName name)).
  rewrite first_split_app_sep; [done|]. apply first_split_no_sep.
Qed.

(** X5.  When the destination directory holds an entry whose name has no
    ['.'] followed by a character of its line (a file without extension, a
    directory), [getAllConfigFromFiles] is rejected with a [TypeError]: line
    106 calls [split] on [undefined]. *)
Theorem getAllConfigFromFiles_entry_without_dot
    (configType : option string) (configFiles : list string) (file : string) (w : World) :
  Fs.readdirSync (destination (config strapi)) w = (Fulfilled configFiles, w) ->
  file ∈ configFiles ->
  Js.splitRest file = None ->
  fst (getAllConfigFromFiles strapi JSON_parse configType w) = Rejected TypeError.
Proof.
  intros Hdir Hfile Hrest.
  assert (pathExists (destination (config strapi)) w) as Hexists.
  { right. revert Hdir. unfold Fs.readdirSync. by repeat case_bool_decide. }
  unfold getAllConfigFromFiles, bind. rewrite existsSync_spec.
  rewrite (bool_decide_eq_true_2 _ Hexists). simpl.
  rewrite Hdir.
  apply (promiseAllMap_rejected _ _ file TypeError Hfile).
  - intros s w1. rewrite Hrest. by eexists.
  - intros y s w1 e' w1'.
    destruct (Js.splitRest y) as [rest|].
    2:{ unfold throw. by intros [= <- _]. }
    destruct (_ || _ || _); [done|].
    unfold bind.
    by destruct (readConfigFile_total strapi JSON_parse
                   (Js.first (Js.split "." y))
                   (Js.join "." (Js.sliceInit (Js.split "." rest))) w1) as [v ->].
Qed.

End Snapshots.

Section Database.

Context (strapi : Strapi).

(** An entry of the object built so far is never overwritten by the
    callbacks of [getAllConfigFromDatabase]. *)
Lemma mergeType_keeps (configType : option string) (key : string) (value : json)
    (types : list string) (acc m : gmap string json) (w w' : World) :
  acc !! key = Some value ->
  promiseAllMap
    (fun type databaseConfigs =>
       if typeFiltered configType type then ret databaseConfigs
       else let* config := callGetAllFromDatabase strapi type in
            ret (Object_assign config databaseConfigs))
    types acc w = (Fulfilled m, w') ->
  m !! key = Some value.
Proof.
  apply (promiseAllMap_invariant (fun s : gmap string json => s !! key = Some value)).
  intros type s w1 s' w1' Hs.
  destruct (typeFiltered configType type).
  { unfold ret. intros ?; by simplify_eq. }
  unfold bind, callGetAllFromDatabase.
  destruct (services strapi !! type) as [provider|]; [|done].
  destruct (getAllFromDatabase provider) as [config|e]; [|done].
  unfold ret, Object_assign. intros ?; simplify_eq.
  by apply lookup_union_Some_l.
Qed.

(** The providers that answer in the order in which they were asked. *)
Lemma getAllConfigFromDatabase_in_order (configType : option string) :
  getAllConfigFromDatabase strapi configType
  = getAllConfigFromDatabase_resolving strapi (include (config strapi)) configType.
Proof. reflexivity. Qed.

(** C3, as amended.  The entries are merged in the order in which the
    providers answer, not in the order of the include list.  When two
    included types, neither left out by the type filter, each contribute an
    entry under the same key, the provider of [type1] answers before that of
    [type2], and no provider that answers before them contributes the key,
    the returned snapshot holds the entry of [type1], the one merged first:
    [Object.assign(config, databaseConfigs)] writes the entries collected so
    far over those of the type that is merged later.  So with providers that
    answer in the order of the include list the type processed earlier wins,
    and the type processed later wins only when its provider answers
    first. *)
Theorem getAllConfigFromDatabase_first_wins
    (configType : option string) (resolved before between after : list string)
    (type1 type2 : string) (provider1 provider2 : Provider)
    (config1 config2 : gmap string json) (key : string) (value1 value2 : json)
    (w w' : World) (m : gmap string json) :
  resolved ≡ₚ include (config strapi) ->
  resolved = before ++ type1 :: between ++ type2 :: after ->
  typeFiltered configType type1 = false ->
  typeFiltered configType type2 = false ->
  services strapi !! type1 = Some provider1 ->
  services strapi !! type2 = Some provider2 ->
  getAllFromDatabase provider1 = Fulfilled config1 ->
  getAllFromDatabase provider2 = Fulfilled config2 ->
  config1 !! key = Some value1 ->
  config2 !! key = Some value2 ->
  (forall t p c, t ∈ before -> services strapi !! t = Some p ->
                 getAllFromDatabase p = Fulfilled c -> c !! key = None) ->
  getAllConfigFromDatabase_resolving strapi resolved configType w = (Fulfilled m, w') ->
  m !! key = Some value1.
Proof.
  intros _ Hinc Hf1 _ Hp1 _ Hc1 _ Hk1 _ Hbefore.
  unfold getAllConfigFromDatabase_resolving. rewrite Hinc. clear Hinc.
  assert (Hacc : (∅ : gmap string json) !! key = None) by apply lookup_empty.
  revert Hacc. generalize (∅ : gmap string json) as acc. revert w.
  induction before as [|t before IH]; intros w acc Hacc; simpl.
  - rewrite Hf1. unfold bind at 1, callGetAllFromDatabase at 1.
    rewrite Hp1, Hc1. unfold ret at 1.
    apply mergeType_keeps. unfold Object_assign.
    by rewrite (lookup_union_r _ _ _ Hacc).
  - destruct (typeFiltered configType t).
    { unfold ret at 1. apply IH; [|done].
      intros t' p c Ht'. apply Hbefore. by right. }
    unfold bind at 1, callGetAllFromDatabase at 1.
    destruct (services strapi !! t) as [p|] eqn:Hp; [|done].
    destruct (getAllFromDatabase p) as [c|e] eqn:Hc; [|done].
    unfold ret at 1. apply IH.
    + intros t' p' c' Ht'. apply Hbefore. by right.
    + unfold Object_assign. apply lookup_union_None. split; [done|].
      eapply Hbefore; [left|exact Hp|exact Hc].
Qed.

(** [getAllConfigFromDatabase] leaves the world as it was. *)
Lemma getAllConfigFromDatabase_world (configType : option string) (w : World) :
  snd (getAllConfigFromDatabase strapi configType w) = w.
Proof.
  apply promiseAllMap_world. intros type s w1.
  destruct (typeFiltered configType type); [done|].
  unfold bind, callGetAllFromDatabase.
  destruct (services strapi !! type) as [p|]; [|done].
  by destruct (getAllFromDatabase p).
Qed.

Lemma getAllConfigFromDatabase_resolving_world
    (resolved : list string) (configType : option string) (w : World) :
  snd (getAllConfigFromDatabase_resolving strapi resolved configType w) = w.
Proof.
  apply promiseAllMap_world. intros type s w1.
  destruct (typeFiltered configType type); [done|].
  unfold bind, callGetAllFromDatabase.
  destruct (services strapi !! type) as [p|]; [|done].
  by destruct (getAllFromDatabase p).
Qed.

(** X6.  [exportAllConfig] invokes [exportAll] of the provider of every
    included type that the type filter lets pass and that has a provider, in
    the order of the include list, also after an earlier one was rejected;
    the files are left to the providers. *)
Theorem exportAllConfig_calls (configType : option string) (w : World) :
  let w' := snd (exportAllConfig strapi configType w) in
  fs w' = fs w
  /\ calls w'
     = calls w
       ++ map ExportAll
            (filter (fun type => typeFiltered configType type = false
                                 /\ is_Some (services strapi !! type))
                    (include (config strapi))).
Proof.
  unfold exportAllConfig.
  set (body := fun (type : string) (_ : unit) =>
                 if typeFiltered configType type then ret tt
                 else callExportAll strapi type).
  generalize tt. revert w.
  induction (include (config strapi)) as [|type types IH]; intros w s; simpl.
  - by rewrite app_nil_r.
  - rewrite filter_cons.
    assert (body type s w
            = if typeFiltered configType type then (Fulfilled tt, w)
              else callExportAll strapi type w) as ->
      by (unfold body; by destruct (typeFiltered configType type)).
    destruct (typeFiltered configType type) eqn:Hfilter.
    { rewrite decide_False by (intros [? _]; done). apply IH. }
    unfold callExportAll.
    destruct (services strapi !! type) as [provider|] eqn:Hprov.
    + rewrite decide_True by (split; [done|by eexists]).
      destruct (exportAll provider) as [[]|e]; simpl;
        match goal with
        | |- context [promiseAllMap body types ?s' ?w'] =>
            destruct (IH w' s') as [Hfs Hcalls]
        end; simpl in *;
        (split; [exact Hfs|]); rewrite Hcalls, <- app_assoc; done.
    + rewrite decide_False by (intros [_ [? ?]]; done).
      unfold throw. simpl. apply IH.
Qed.

End Database.

(** ** Writing and deleting a config file *)

Lemma append_ne_self (s t : string) : t <> EmptyString -> s +:+ t <> s.
Proof.
  intros Ht. induction s as [|a s IH]; simpl.
  - exact Ht.
  - change (String a s +:+ t) with (String a (s +:+ t)). congruence.
Qed.

Section WriteDelete.

Context (strapi : Strapi).

Lemma configPath_ne_destination (configType configName : string) :
  configPath strapi configType configName <> destination (config strapi).
Proof.
  unfold configPath. apply append_ne_self.
  destruct configType; discriminate.
Qed.

Lemma writeConfigFile_steps (configType configName : string) (c : json) (w : World) :
  excluded strapi (configType +:+ "." +:+ configName) = false ->
  writeConfigFile strapi configType configName c w
  = (ensureDestination strapi >>>
     catch (Fs.writeFile (configPath strapi configType (encodeName configName))
              (fileText strapi c))
           (fun _ => ret tt)) w.
Proof.
  unfold writeConfigFile, excluded, ensureDestination, fileText. intros ->.
  unfold bind, Fs.existsSync. by destruct (minify (config strapi)).
Qed.

Lemma ensureDestination_spec (w w1 : World) :
  ensureDestination strapi w = (Fulfilled tt, w1) ->
  files (fs w1) = files (fs w) /\ readonly (fs w1) = readonly (fs w)
  /\ calls w1 = calls w
  /\ (dirs (fs w1) = dirs (fs w)
      \/ dirs (fs w1) = {[destination (config strapi)]} ∪ dirs (fs w)).
Proof.
  unfold ensureDestination, bind. rewrite existsSync_spec.
  case_bool_decide; simpl.
  - unfold ret. intros ?; simplify_eq. tauto.
  - unfold Fs.mkdirSync. repeat case_bool_decide; intros ?; simplify_eq.
    + tauto.
    + simpl. tauto.
Qed.


(** C5, as amended.  Two statements, each with its own world.  A failure of
    [fs.writeFile] in [writeConfigFile] is swallowed: whenever the write of a
    pair that is not excluded fails, in the world [w1] that the destination
    step leaves, the call is fulfilled and the world is [w1], as it was
    before the write.  A failure of [fs.unlinkSync] in [deleteConfigFile] is
    not: whenever the removal of the file of a key that is not excluded
    fails, the call is rejected with the error of [fs.unlinkSync]. *)
Theorem writeFile_failure_swallowed_unlink_failure_propagated :
  (forall (configType configName : string) (fileContents : json) (w w1 : World)
          (e : error),
      excluded strapi (configType +:+ "." +:+ configName) = false ->
      ensureDestination strapi w = (Fulfilled tt, w1) ->
      fst (Fs.writeFile (configPath strapi configType (encodeName configName))
             (fileText strapi fileContents) w1) = Rejected e ->
      writeConfigFile strapi configType configName fileContents w = (Fulfilled tt, w1))
  /\ (forall (key : string) (w : World) (e : error),
        excluded strapi key = false ->
        fst (Fs.unlinkSync
               (destination (config strapi) +:+ encodeName key +:+ ".json") w)
          = Rejected e ->
        deleteConfigFile strapi key w = (Rejected e, w)).
Proof.
  split.
  - intros configType configName fileContents w w1 e Hex Hw1 Hwrite.
    rewrite (writeConfigFile_steps _ _ _ _ Hex).
    unfold bind at 1. rewrite Hw1. unfold catch.
    unfold Fs.writeFile in *. by repeat case_bool_decide.
  - intros key w e Hexkey Hunlink.
    unfold deleteConfigFile. unfold excluded in Hexkey. rewrite Hexkey.
    unfold Fs.unlinkSync in *.
    destruct (files (fs w) !! _); repeat case_bool_decide; simpl in *; by simplify_eq.
Qed.

End WriteDelete.

(** ** Importing all configs *)

Lemma onlyImports_refl (configType : string) (w : World) : onlyImports configType w w.
Proof. split; [done|]. exists []. by rewrite app_nil_r. Qed.

Lemma onlyImports_trans (configType : string) (w1 w2 w3 : World) :
  onlyImports configType w1 w2 -> onlyImports configType w2 w3 ->
  onlyImports configType w1 w3.
Proof.
  intros (Hfs1 & new1 & Hc1 & Hall1) (Hfs2 & new2 & Hc2 & Hall2).
  split; [congruence|]. exists (new1 ++ new2). split.
  - by rewrite Hc2, Hc1, app_assoc.
  - by apply Forall_app.
Qed.

Section ImportAll.

Context (strapi : Strapi) (JSON_parse : string -> option json).
Context (difference : gmap string json -> gmap string json -> list (string * json)).

Lemma getAllConfigFromFiles_world (configType : option string) (w : World) :
  snd (getAllConfigFromFiles strapi JSON_parse configType w) = w.
Proof.
  unfold getAllConfigFromFiles, bind. rewrite existsSync_spec.
  destruct (bool_decide _); simpl; [|done].
  unfold Fs.readdirSync. repeat case_bool_decide; try done.
  apply promiseAllMap_world. intros file s w1.
  destruct (Js.splitRest file) as [rest|]; [|done].
  destruct (_ || _ || _); [done|].
  unfold bind.
  by destruct (readConfigFile_total strapi JSON_parse
                 (Js.first (Js.split "." file))
                 (Js.join "." (Js.sliceInit (Js.split "." rest))) w1) as [v ->].
Qed.

Lemma importAllConfig_snapshots_unfiltered
    (configType : option string) (w w1 : World) (fileConfig databaseConfig : gmap string json) :
  importAllConfig_snapshots strapi JSON_parse configType w
    = (Fulfilled (fileConfig, databaseConfig), w1) ->
  w1 = w
  /\ getAllConfigFromFiles strapi JSON_parse None w = (Fulfilled fileConfig, w)
  /\ getAllConfigFromDatabase strapi None w = (Fulfilled databaseConfig, w).
Proof.
  unfold importAllConfig_snapshots, bind.
  pose proof (getAllConfigFromFiles_world None w) as Hf.
  destruct (getAllConfigFromFiles strapi JSON_parse None w) as [[f|e] w2]; [|done].
  simpl in Hf. subst w2.
  pose proof (getAllConfigFromDatabase_world strapi None w) as Hd.
  destruct (getAllConfigFromDatabase strapi None w) as [[d|e] w2]; [|done].
  simpl in Hd. subst w2. unfold ret. intros ?; by simplify_eq.
Qed.

Lemma importAllConfig_snapshots_world (configType : option string) (w : World) :
  snd (importAllConfig_snapshots strapi JSON_parse configType w) = w.
Proof.
  unfold importAllConfig_snapshots, bind.
  pose proof (getAllConfigFromFiles_world None w) as Hf.
  destruct (getAllConfigFromFiles strapi JSON_parse None w) as [[f|e] w2];
    simpl in Hf; subst w2; [|done].
  pose proof (getAllConfigFromDatabase_world strapi None w) as Hd.
  by destruct (getAllConfigFromDatabase strapi None w) as [[d|e] w2].
Qed.

Lemma importSingleConfig_onlyImports (configType configName : string) (w : World) :
  onlyImports configType w
    (snd (importSingleConfig strapi JSON_parse configType configName w)).
Proof.
  unfold importSingleConfig.
  destruct (Js.includes _ _); [apply onlyImports_refl|].
  unfold bind.
  destruct (readConfigFile_total strapi JSON_parse configType configName w) as [v ->].
  unfold callImportSingle.
  destruct (services strapi !! configType) as [p|]; [|apply onlyImports_refl].
  split; [done|]. eexists. split; [done|].
  constructor; [|constructor]. eauto.
Qed.

Lemma importDiffKey_onlyImports (configType file : string) (w : World) :
  configType <> EmptyString ->
  onlyImports configType w (snd (importDiffKey strapi JSON_parse (Some configType) file w)).
Proof.
  intros Hct. unfold importDiffKey.
  destruct (typeFiltered _ _) eqn:Hfilter; [apply onlyImports_refl|].
  assert (Js.first (Js.split "." file) = configType) as ->.
  { unfold typeFiltered in Hfilter.
    rewrite (bool_decide_eq_false_2 _ Hct) in Hfilter. simpl in Hfilter.
    apply negb_false_iff, bool_decide_eq_true in Hfilter. done. }
  unfold detach. simpl.
  destruct (Js.splitRest file) as [name|].
  - apply importSingleConfig_onlyImports.
  - unfold importSingleConfig_undefined.
    destruct (Js.includes _ _); apply onlyImports_refl.
Qed.

Lemma forEach_onlyImports (configType : string) (keys : list string) (w : World) :
  configType <> EmptyString ->
  onlyImports configType w
    (snd (forEach (importDiffKey strapi JSON_parse (Some configType)) keys w)).
Proof.
  intros Hct. revert w. induction keys as [|file keys IH]; intros w; simpl.
  - apply onlyImports_refl.
  - unfold bind.
    pose proof (importDiffKey_onlyImports configType file w Hct) as Hstep.
    destruct (importDiffKey strapi JSON_parse (Some configType) file w) as [[[]|e] w1];
      simpl in Hstep; [|done].
    eapply onlyImports_trans; [exact Hstep|apply IH].
Qed.

End ImportAll.

(** ** The properties on the scenarios *)

Lemma readdirSync_world_sync :
  Fs.readdirSync "config/sync/" world_sync
  = (Fulfilled ["core-store.settings.json"; "core-store.types##page.json";
                "user-role.public.json"], world_sync).
Proof. vm_compute. reflexivity. Qed.

(** C1 fails on the code.  The key [core-store.types::page] is excluded, the
    file of that entry is [core-store.types##page.json], and
    [getAllConfigFromFiles] returns a snapshot that holds the key: the check
    of line 114 looks up the name as the file spells it, with ['#'], while
    the exclude list spells it with [':'], as the checks of [writeConfigFile]
    and [importSingleConfig] read it. *)
Theorem getAllConfigFromFiles_returns_excluded_key (JSON_parse : string -> option json) :
  excluded strapi_sync "core-store.types::page" = true
  /\ exists (m : gmap string json) (content : json),
       getAllConfigFromFiles strapi_sync JSON_parse None world_sync
         = (Fulfilled m, world_sync)
       /\ m !! "core-store.types::page" = Some content.
Proof.
  split; [reflexivity|].
  destruct (getAllConfigFromFiles_fulfilled strapi_sync JSON_parse None _ _
              readdirSync_world_sync) as [m Hm].
  { repeat constructor; by eexists. }
  exists m.
  assert (is_Some (m !! "core-store.types::page")) as [content Hcontent].
  { apply (getAllConfigFromFiles_lists strapi_sync JSON_parse None _
             "core-store.types##page.json" "types##page.json" world_sync world_sync m
             readdirSync_world_sync).
    - by_evaluation.
    - vm_compute. reflexivity.
    - vm_compute. reflexivity.
    - vm_compute. reflexivity.
    - vm_compute. reflexivity.
    - exact Hm. }
  exists content. split; [exact Hm|exact Hcontent].
Qed.

Lemma excluded_operations_noop_witness :
  excluded strapi_sync "core-store.types::page" = true
  /\ writeConfigFile strapi_sync "core-store" "types::page" JNull world_sync
      = (Fulfilled tt, world_sync)
  /\ importSingleConfig strapi_sync JSON_parse_scenario "core-store" "types::page" world_sync
      = (Fulfilled tt, world_sync)
  /\ deleteConfigFile strapi_sync "core-store.types::page" world_sync
      = (Fulfilled tt, world_sync).
Proof.
  split; [reflexivity|].
  apply (excluded_operations_noop strapi_sync JSON_parse_scenario
           "core-store" "types::page" JNull world_sync).
  reflexivity.
Defined.

Lemma getAllConfigFromFiles_excluded_plain_witness :
  excluded strapi_plain "core-store.settings" = true
  /\ getAllConfigFromFiles strapi_plain JSON_parse_scenario None world_sync
      = (Fulfilled {[ "core-store.types::page" := JObj [];
                      "user-role.public" := JObj [] ]}, world_sync)
  /\ ({[ "core-store.types::page" := JObj [];
         "user-role.public" := JObj [] ]} : gmap string json) !! "core-store.settings"
     = None.
Proof.
  split; [reflexivity|].
  assert (getAllConfigFromFiles strapi_plain JSON_parse_scenario None world_sync
          = (Fulfilled {[ "core-store.types::page" := JObj [];
                          "user-role.public" := JObj [] ]}, world_sync)) as Hrun
    by (vm_compute; reflexivity).
  split; [exact Hrun|].
  apply (getAllConfigFromFiles_excluded_plain strapi_plain JSON_parse_scenario None
           "core-store.settings" world_sync world_sync _).
  - reflexivity.
  - reflexivity.
  - exact Hrun.
Defined.

Lemma getAllConfigFromFiles_included_types_witness :
  Js.includes (include (config strapi_sync)) (Js.first (Js.split "." "user-role.public"))
    = true
  /\ typeFiltered (Some "user-role") (Js.first (Js.split "." "user-role.public")) = false.
Proof.
  apply (getAllConfigFromFiles_included_types strapi_sync JSON_parse_scenario
           (Some "user-role") "user-role.public" world_sync world_sync
           {[ "user-role.public" := JObj [] ]}).
  - vm_compute. reflexivity.
  - by exists (JObj []).
Defined.

(** C3, as stated, fails: [user-role] comes before [core-store] in the
    include list, both providers list the key [user-role.public], and when
    the providers answer in the order in which they were asked the snapshot
    holds the entry of [user-role], the type processed earlier. *)
Lemma getAllConfigFromDatabase_later_loses :
  include (config strapi_sync) = ["user-role"; "core-store"]
  /\ exists m : gmap string json,
       getAllConfigFromDatabase_resolving strapi_sync ["user-role"; "core-store"] None
         world_sync = (Fulfilled m, world_sync)
       /\ m !! "user-role.public" = Some (JNum 1)
       /\ m !! "user-role.public" <> Some (JNum 2).
Proof.
  split; [reflexivity|].
  exists {[ "user-role.public" := JNum 1 ]}. split; [|split].
  - vm_compute. reflexivity.
  - reflexivity.
  - discriminate.
Qed.

(** When the provider of [core-store], the later type of the include list,
    answers first, its entry is the one in the snapshot. *)
Lemma getAllConfigFromDatabase_first_wins_witness :
  include (config strapi_sync) = ["user-role"; "core-store"]
  /\ getAllConfigFromDatabase_resolving strapi_sync ["core-store"; "user-role"] None
       world_sync
     = (Fulfilled {[ "user-role.public" := JNum 2 ]}, world_sync)
  /\ ({[ "user-role.public" := JNum 2 ]} : gmap string json) !! "user-role.public"
     = Some (JNum 2).
Proof.
  split; [reflexivity|].
  split; [vm_compute; reflexivity|].
  apply (getAllConfigFromDatabase_first_wins strapi_sync None
           ["core-store"; "user-role"] [] [] []
           "core-store" "user-role"
           (providerOf {[ "user-role.public" := JNum 2 ]})
           (providerOf {[ "user-role.public" := JNum 1 ]})
           {[ "user-role.public" := JNum 2 ]} {[ "user-role.public" := JNum 1 ]}
           "user-role.public" (JNum 2) (JNum 1) world_sync world_sync).
  - by_evaluation.
  - reflexivity.
  - reflexivity.
  - reflexivity.
  - vm_compute. reflexivity.
  - vm_compute. reflexivity.
  - reflexivity.
  - reflexivity.
  - reflexivity.
  - reflexivity.
  - intros t p c Ht. by apply elem_of_nil in Ht.
  - vm_compute. reflexivity.
Defined.

(** With the filter [core-store], [importAllConfig] imports the one entry of
    that type that the files hold and the database lacks. *)
Example importAllConfig_core_store :
  calls (snd (importAllConfig strapi_sync JSON_parse_scenario difference_scenario
                (Some "core-store") world_sync))
  = [ImportSingle "core-store" "settings" (JObj [])].
Proof. vm_compute. reflexivity. Qed.

(** C5, as stated, fails for [deleteConfigFile]: deleting the file of an entry
    that has none is rejected with the error of [fs.unlinkSync]. *)
Lemma deleteConfigFile_propagates_failure :
  deleteConfigFile strapi_sync "user-role.missing" world_sync
  = (Rejected ENOENT, world_sync).
Proof. vm_compute. reflexivity. Qed.

(** The write of a file that cannot be modified fails and is swallowed; the
    removal of a file that does not exist fails, in a world in which no
    write can fail, and is reported. *)
Lemma writeFile_failure_swallowed_unlink_failure_propagated_witness :
  fst (Fs.writeFile (configPath strapi_sync "user-role" (encodeName "public"))
         (fileText strapi_sync (JObj [("a", JNum 1)])) world_sync) = Rejected EACCES
  /\ writeConfigFile strapi_sync "user-role" "public" (JObj [("a", JNum 1)]) world_sync
     = (Fulfilled tt, world_sync)
  /\ fst (Fs.unlinkSync
            (destination (config strapi_sync) +:+ encodeName "user-role.public" +:+ ".json")
            world_empty) = Rejected ENOENT
  /\ deleteConfigFile strapi_sync "user-role.public" world_empty
     = (Rejected ENOENT, world_empty).
Proof.
  destruct (writeFile_failure_swallowed_unlink_failure_propagated strapi_sync)
    as [Hwrite Hdelete].
  split; [vm_compute; reflexivity|].
  split.
  - apply (Hwrite "user-role" "public" (JObj [("a", JNum 1)]) world_sync world_sync EACCES).
    + vm_compute. reflexivity.
    + vm_compute. reflexivity.
    + vm_compute. reflexivity.
  - split; [vm_compute; reflexivity|].
    apply (Hdelete "user-role.public" world_empty ENOENT).
    + vm_compute. reflexivity.
    + vm_compute. reflexivity.
Defined.

Lemma getAllConfigFromFiles_no_destination_witness :
  ~ pathExists (destination (config strapi_sync)) world_empty
  /\ getAllConfigFromFiles strapi_sync JSON_parse_scenario (Some "user-role") world_empty
     = (Fulfilled ∅, world_empty).
Proof.
  assert (~ pathExists (destination (config strapi_sync)) world_empty) as Hnone.
  { unfold pathExists. by_evaluation. }
  split; [exact Hnone|].
  exact (getAllConfigFromFiles_no_destination strapi_sync JSON_parse_scenario
           (Some "user-role") world_empty Hnone).
Defined.

Lemma readConfigFile_missing_witness :
  files (fs world_sync) !! configPath strapi_sync "user-role" (encodeName "editor") = None
  /\ readConfigFile strapi_sync JSON_parse_scenario "user-role" "editor" world_sync
     = (Fulfilled JNull, world_sync).
Proof.
  assert (files (fs world_sync) !! configPath strapi_sync "user-role" (encodeName "editor")
          = None) as Hnone by (vm_compute; reflexivity).
  split; [exact Hnone|].
  exact (readConfigFile_missing strapi_sync JSON_parse_scenario "user-role" "editor"
           world_sync Hnone).
Defined.



(** With [minify] set, the text has no indentation. *)
Example writeConfigFile_minified :
  files (fs (snd (writeConfigFile
                    (mkStrapi (mkConfig ["user-role"] [] "config/sync/" true) ∅)
                    "user-role" "public" (JObj [("a", JNum 1)]) world_empty)))
  = {[ "config/sync/user-role.public.json"
       := "{" +:+ JSON.quote "a" +:+ ":1}" ]}.
Proof. vm_compute. reflexivity. Qed.

Lemma importSingleConfig_missing_file_witness :
  importSingleConfig strapi_sync JSON_parse_scenario "user-role" "editor" world_sync
  = (Fulfilled tt,
     mkWorld (fs world_sync) [ImportSingle "user-role" "editor" JNull]).
Proof.
  apply (importSingleConfig_missing_file strapi_sync JSON_parse_scenario
           "user-role" "editor" (providerOf {[ "user-role.public" := JNum 1 ]})
           world_sync).
  - vm_compute. reflexivity.
  - vm_compute. reflexivity.
  - vm_compute. reflexivity.
Defined.

Lemma getAllConfigFromFiles_entry_without_dot_witness :
  Js.splitRest "README" = None
  /\ fst (getAllConfigFromFiles strapi_sync JSON_parse_scenario None world_readme)
     = Rejected TypeError.
Proof.
  split; [reflexivity|].
  apply (getAllConfigFromFiles_entry_without_dot strapi_sync JSON_parse_scenario None
           ["user-role.public.json"; "README"] "README" world_readme).
  - vm_compute. reflexivity.
  - by_evaluation.
  - reflexivity.
Defined.

(** The export of all configs asks both providers. *)
Example exportAllConfig_both :
  calls (snd (exportAllConfig strapi_sync None world_sync))
  = [ExportAll "user-role"; ExportAll "core-store"].
Proof. vm_compute. reflexivity. Qed.

(** ** Reading, writing and deleting one file, composed *)

Lemma string_app_assoc (s t u : string) : (s +:+ t) +:+ u = s +:+ t +:+ u.
Proof.
  induction s as [|a s IH]; [done|].
  change ((String a s +:+ t) +:+ u) with (String a ((s +:+ t) +:+ u)).
  change (String a s +:+ t +:+ u) with (String a (s +:+ t +:+ u)).
  by rewrite IH.
Qed.

Lemma replaceAll_app (c d : ascii) (s t : string) :
  Js.replaceAll c d (s +:+ t) = Js.replaceAll c d s +:+ Js.replaceAll c d t.
Proof.
  induction s as [|a s IH]; [done|].
  change (String a s +:+ t) with (String a (s +:+ t)). simpl.
  change (String ?x ?y +:+ ?z) with (String x (y +:+ z)).
  by rewrite IH.
Qed.

Section WriteDeleteComposed.

Context (strapi : Strapi).


(** The world after the destination step and a write that succeeds. *)
Lemma writeConfigFile_success
    (configType configName : string) (fileContents : json) (w : World) :
  excluded strapi (configType +:+ "." +:+ configName) = false ->
  pathExists (destination (config strapi)) w
    \/ destination (config strapi) ∉ readonly (fs w) ->
  configPath strapi configType (encodeName configName) ∉ dirs (fs w) ->
  configPath strapi configType (encodeName configName) ∉ readonly (fs w) ->
  exists w1,
    ensureDestination strapi w = (Fulfilled tt, w1)
    /\ writeConfigFile strapi configType configName fileContents w
       = (Fulfilled tt,
          Fs.withFiles
            (<[configPath strapi configType (encodeName configName)
               := fileText strapi fileContents]> (files (fs w))) w1).
Proof.
  intros Hex Hdest Hdir Hro.
  assert (exists w1, ensureDestination strapi w = (Fulfilled tt, w1)) as [w1 Hw1].
  { unfold ensureDestination, bind. rewrite existsSync_spec.
    case_bool_decide as Hexists; simpl; [by eexists|].
    unfold Fs.mkdirSync. repeat case_bool_decide; try by eexists.
    - exfalso. apply Hexists. by left.
    - tauto. }
  exists w1. split; [done|].
  destruct (ensureDestination_spec _ _ _ Hw1) as (Hfiles & Hreadonly & Hcalls & Hdirs).
  assert (configPath strapi configType (encodeName configName) ∉ dirs (fs w1)) as Hdir1.
  { destruct Hdirs as [->| ->]; [done|].
    pose proof (configPath_ne_destination strapi configType (encodeName configName)).
    apply not_elem_of_union. split; [|done]. by apply not_elem_of_singleton. }
  rewrite (writeConfigFile_steps _ _ _ _ _ Hex).
  unfold bind. rewrite Hw1. unfold catch, Fs.writeFile.
  rewrite (bool_decide_eq_false_2 _ Hdir1).
  by rewrite Hreadonly, (bool_decide_eq_false_2 _ Hro), Hfiles.
Qed.

Lemma ensureDestination_frame (w : World) :
  let w1 := snd (ensureDestination strapi w) in
  files (fs w1) = files (fs w) /\ readonly (fs w1) = readonly (fs w)
  /\ calls w1 = calls w /\ dirs (fs w) ⊆ dirs (fs w1).
Proof.
  unfold ensureDestination, bind. rewrite existsSync_spec.
  case_bool_decide; simpl; [done|].
  unfold Fs.mkdirSync. repeat case_bool_decide; simpl; try done.
  repeat split; try done. apply union_subseteq_r.
Qed.

(** X9.  Whatever happens, [writeConfigFile] changes no file but the one at
    the path of its pair, invokes no provider operation, and removes no
    directory. *)
Theorem writeConfigFile_frame
    (configType configName : string) (fileContents : json) (w : World) (path : string) :
  let w' := snd (writeConfigFile strapi configType configName fileContents w) in
  path <> destination (config strapi) +:+ configType +:+ "."
          +:+ encodeName configName +:+ ".json" ->
  files (fs w') !! path = files (fs w) !! path
  /\ calls w' = calls w
  /\ dirs (fs w) ⊆ dirs (fs w').
Proof.
  intros w' Hpath. subst w'.
  destruct (excluded strapi (configType +:+ "." +:+ configName)) eqn:Hex.
  { by rewrite (writeConfigFile_excluded _ _ _ _ _ Hex). }
  rewrite (writeConfigFile_steps _ _ _ _ _ Hex).
  fold (configPath strapi configType (encodeName configName)) in Hpath.
  pose proof (ensureDestination_frame w) as (Hfiles & _ & Hcalls & Hdirs).
  unfold bind.
  destruct (ensureDestination strapi w) as [[[]|e] w1]; simpl in *.
  2:{ by rewrite Hfiles, Hcalls. }
  unfold catch, Fs.writeFile.
  repeat case_bool_decide; simpl; rewrite ?Hfiles, ?Hcalls; try done.
  by rewrite lookup_insert_ne.
Qed.

(** X10.  The last write wins.  Two calls of [writeConfigFile] for the same
    pair, each succeeding, leave exactly one file for the pair, with the
    text of the second contents; writing the same contents twice is writing
    them once. *)
Theorem writeConfigFile_twice
    (configType configName : string) (first second : json) (w : World) :
  let w1 := snd (writeConfigFile strapi configType configName first w) in
  let w2 := snd (writeConfigFile strapi configType configName second w1) in
  excluded strapi (configType +:+ "." +:+ configName) = false ->
  pathExists (destination (config strapi)) w
    \/ destination (config strapi) ∉ readonly (fs w) ->
  configPath strapi configType (encodeName configName) ∉ dirs (fs w) ->
  configPath strapi configType (encodeName configName) ∉ readonly (fs w) ->
  w2 = snd (writeConfigFile strapi configType configName second w).
Proof.
  intros w1 w2 Hex Hdest Hdir Hro. subst w1 w2.
  destruct (writeConfigFile_success _ _ first _ Hex Hdest Hdir Hro) as (w1 & Hw1 & ->).
  destruct (writeConfigFile_success _ _ second _ Hex Hdest Hdir Hro) as (w1' & Hw1' & ->).
  assert (w1' = w1) as -> by congruence. simpl.
  destruct (ensureDestination_spec _ _ _ Hw1) as (Hfiles & Hreadonly & Hcalls & Hdirs).
  set (p := configPath strapi configType (encodeName configName)) in *.
  set (wa := Fs.withFiles (<[p := fileText strapi first]> (files (fs w))) w1).
  assert (ensureDestination strapi wa = (Fulfilled tt, wa)) as Hens.
  { unfold ensureDestination, bind. rewrite existsSync_spec.
    rewrite bool_decide_eq_true_2; [done|].
    subst wa. unfold pathExists. simpl.
    revert Hw1. unfold ensureDestination, bind. rewrite existsSync_spec.
    case_bool_decide as Hexists; simpl.
    - unfold ret. intros [= <-]. destruct Hexists as [[x Hx]|Hd]; [left|by right].
      rewrite lookup_insert_ne by apply configPath_ne_destination. by eexists.
    - unfold Fs.mkdirSync. repeat case_bool_decide; intros [= <-]; simpl; right;
        first [done | apply elem_of_union; left; by apply elem_of_singleton]. }
  assert (p ∉ dirs (fs wa)) as Hdira.
  { subst wa. simpl. destruct Hdirs as [->| ->]; [done|].
    pose proof (configPath_ne_destination strapi configType (encodeName configName)).
    apply not_elem_of_union. split; [|done]. by apply not_elem_of_singleton. }
  rewrite (writeConfigFile_steps _ _ _ _ _ Hex).
  unfold bind. rewrite Hens. unfold catch, Fs.writeFile. fold p.
  rewrite (bool_decide_eq_false_2 _ Hdira).
  assert (p ∉ readonly (fs wa)) as Hroa by (subst wa; simpl; by rewrite Hreadonly).
  rewrite (bool_decide_eq_false_2 _ Hroa). simpl.
  unfold Fs.withFiles. simpl. by rewrite insert_insert_eq.
Qed.

(** For a type without [':'], [deleteConfigFile] of the composite key
    removes the file that [writeConfigFile] writes for the pair. *)
Lemma deleteConfigFile_path (configType configName : string) :
  Js.occurs ":" configType = false ->
  destination (config strapi) +:+ encodeName (configType +:+ "." +:+ configName) +:+ ".json"
  = configPath strapi configType (encodeName configName).
Proof.
  intros Htype. unfold configPath, encodeName.
  rewrite !replaceAll_app, (replaceAll_absent _ _ _ Htype).
  change (Js.replaceAll ":" "#" ".") with ".".
  by rewrite !string_app_assoc.
Qed.


End WriteDeleteComposed.

Section ReadComposed.

Context (strapi : Strapi) (JSON_parse : string -> option json).

(** X7.  [readConfigFile] never rejects and never changes the world; it
    returns the parsed text of the file at
    [destination ++ type ++ "." ++ encoded name ++ ".json"], and [null] both
    when there is no such file and when its text is not JSON. *)
Theorem readConfigFile_value (configType configName : string) (w : World) :
  readConfigFile strapi JSON_parse configType configName w
  = (Fulfilled
       (fileValue JSON_parse
          (files (fs w) !! (destination (config strapi) +:+ configType +:+ "."
                            +:+ encodeName configName +:+ ".json"))), w).
Proof.
  unfold readConfigFile, catch, bind, Fs.readFile, configPath, fileValue.
  destruct (files (fs w) !! _) as [data|].
  - by destruct (JSON_parse data).
  - by case_bool_decide.
Qed.

Lemma readConfigFile_fileValue (configType configName : string) (w : World) :
  readConfigFile strapi JSON_parse configType configName w
  = (Fulfilled
       (fileValue JSON_parse
          (files (fs w) !! configPath strapi configType (encodeName configName))), w).
Proof.
  unfold readConfigFile, catch, bind, Fs.readFile, fileValue.
  destruct (files (fs w) !! _) as [data|].
  - by destruct (JSON_parse data).
  - by case_bool_decide.
Qed.


(** X11.  Delete, then read.  For a pair that is not excluded, with a type
    without [':'], once [deleteConfigFile] of the composite key is
    fulfilled, [readConfigFile] of the pair returns [null]. *)
Theorem readConfigFile_after_deleteConfigFile (configType configName : string) (w : World) :
  let w' := snd (deleteConfigFile strapi (configType +:+ "." +:+ configName) w) in
  Js.occurs ":" configType = false ->
  excluded strapi (configType +:+ "." +:+ configName) = false ->
  fst (deleteConfigFile strapi (configType +:+ "." +:+ configName) w) = Fulfilled tt ->
  readConfigFile strapi JSON_parse configType configName w' = (Fulfilled JNull, w').
Proof.
  intros w' Htype Hex. subst w'. unfold deleteConfigFile.
  unfold excluded in Hex. rewrite Hex.
  rewrite (deleteConfigFile_path strapi _ _ Htype).
  unfold Fs.unlinkSync.
  destruct (files (fs w) !! _) as [data|]; repeat case_bool_decide; try done.
  intros _. simpl. apply readConfigFile_absent. simpl. apply lookup_delete_eq.
Qed.

End ReadComposed.

(** A type with [':'] is spelled differently by the two: the file that
    [writeConfigFile] writes is not the one that [deleteConfigFile] removes. *)
Example deleteConfigFile_type_with_colon :
  configPath strapi_sync "api::page" (encodeName "home") = "config/sync/api::page.home.json"
  /\ "config/sync/" +:+ encodeName ("api::page" +:+ "." +:+ "home") +:+ ".json"
     = "config/sync/api##page.home.json".
Proof. split; reflexivity. Qed.

(** ** Importing, entry by entry *)

Section ImportCalls.

Context (strapi : Strapi) (JSON_parse : string -> option json).
Context (difference : gmap string json -> gmap string json -> list (string * json)).

(** X13.  For a pair that is not excluded and whose type has a provider,
    [importSingleConfig] calls [importSingle] of that provider with the name
    and with whatever [readConfigFile] returns for the pair (the parsed
    file, or [null] when the file is missing or is not JSON), and settles as
    that call does; the files are left as they are. *)
Theorem importSingleConfig_calls
    (configType configName : string) (provider : Provider) (w : World) :
  let content :=
    fileValue JSON_parse
      (files (fs w) !! configPath strapi configType (encodeName configName)) in
  excluded strapi (configType +:+ "." +:+ configName) = false ->
  services strapi !! configType = Some provider ->
  importSingleConfig strapi JSON_parse configType configName w
  = (importSingle provider configName content,
     mkWorld (fs w) (calls w ++ [ImportSingle configType configName content])).
Proof.
  intros content Hex Hprov. unfold importSingleConfig, excluded in *.
  rewrite Hex. unfold bind. rewrite readConfigFile_fileValue.
  unfold callImportSingle. by rewrite Hprov.
Qed.

(** X14.  For a pair that is not excluded and whose type has no provider
    service, [importSingleConfig] is rejected with a [TypeError], after the
    file was read, and nothing is changed. *)
Theorem importSingleConfig_no_provider (configType configName : string) (w : World) :
  excluded strapi (configType +:+ "." +:+ configName) = false ->
  services strapi !! configType = None ->
  importSingleConfig strapi JSON_parse configType configName w = (Rejected TypeError, w).
Proof.
  intros Hex Hprov. unfold importSingleConfig, excluded in *.
  rewrite Hex. unfold bind. rewrite readConfigFile_fileValue.
  unfold callImportSingle. by rewrite Hprov.
Qed.

Lemma importDiffKey_step (configType : option string) (key : string) (w : World) :
  importDiffKey strapi JSON_parse configType key w
  = (Fulfilled tt,
     mkWorld (fs w)
       (calls w ++ option_list (importedCall strapi JSON_parse configType (fs w) key))).
Proof.
  unfold importDiffKey, importedCall.
  destruct (typeFiltered configType _).
  { unfold ret. simpl. rewrite app_nil_r. by destruct w. }
  unfold detach. f_equal.
  destruct (Js.splitRest key) as [name|].
  - unfold importSingleConfig, excluded.
    destruct (Js.includes _ _).
    { simpl. rewrite app_nil_r. by destruct w. }
    unfold bind. rewrite readConfigFile_fileValue.
    unfold callImportSingle.
    destruct (services strapi !! _); simpl; [done|].
    rewrite app_nil_r. by destruct w.
  - unfold importSingleConfig_undefined.
    destruct (Js.includes _ _); simpl; rewrite app_nil_r; by destruct w.
Qed.

Lemma forEach_importDiffKey (configType : option string) (keys : list string) (w : World) :
  forEach (importDiffKey strapi JSON_parse configType) keys w
  = (Fulfilled tt,
     mkWorld (fs w)
       (calls w ++ omap (importedCall strapi JSON_parse configType (fs w)) keys)).
Proof.
  revert w. induction keys as [|key keys IH]; intros w; simpl.
  - unfold ret. rewrite app_nil_r. by destruct w.
  - unfold bind. rewrite importDiffKey_step, IH. simpl. f_equal. f_equal.
    rewrite <- app_assoc. f_equal.
    by destruct (importedCall strapi JSON_parse configType (fs w) key).
Qed.

Lemma importAllConfig_in_order (configType : option string) (w : World) :
  importAllConfig strapi JSON_parse difference configType w
  = importAllConfig_resolving strapi JSON_parse difference (include (config strapi))
      configType w.
Proof.
  unfold importAllConfig, importAllConfig_resolving, importAllConfig_snapshots, bind.
  destruct (getAllConfigFromFiles strapi JSON_parse None w) as [[f|e] w1]; [|done].
  rewrite <- getAllConfigFromDatabase_in_order.
  by destruct (getAllConfigFromDatabase strapi None w1) as [[d|e] w2].
Qed.

(** What [importAllConfig] does once both snapshots were read, in the model's
    order of the calls. *)
Lemma importAllConfig_resolving_run
    (resolved : list string) (configType : option string)
    (fileConfig databaseConfig : gmap string json) (w : World) :
  fst (getAllConfigFromFiles strapi JSON_parse None w) = Fulfilled fileConfig ->
  fst (getAllConfigFromDatabase_resolving strapi resolved None w) = Fulfilled databaseConfig ->
  importAllConfig_resolving strapi JSON_parse difference resolved configType w
  = forEach (importDiffKey strapi JSON_parse configType)
      (Object_keys (difference databaseConfig fileConfig)) w.
Proof.
  intros Hf Hd. unfold importAllConfig_resolving, bind.
  pose proof (getAllConfigFromFiles_world strapi JSON_parse None w) as Hwf.
  destruct (getAllConfigFromFiles strapi JSON_parse None w) as [f wf].
  simpl in Hf, Hwf. subst f wf.
  pose proof (getAllConfigFromDatabase_resolving_world strapi resolved None w) as Hwd.
  destruct (getAllConfigFromDatabase_resolving strapi resolved None w) as [d wd].
  simpl in Hd, Hwd. by subst d wd.
Qed.

(** C4, as amended.  [importAllConfig(configType)] with a type filter (a
    non-empty string) reads both snapshots without the filter and hands
    them to [difference] as they are, with the entries of every type; the
    filter is applied to the keys of the diff instead.  Whatever
    [difference] is and in whatever order the providers answer: when
    [getAllConfigFromFiles()] returns [fileConfig] and
    [getAllConfigFromDatabase()] returns [databaseConfig], the files are left
    as they are, every provider operation invoked is [importSingle] of the
    provider of [configType], and the operations invoked are, in some order,
    those of the keys of [difference(databaseConfig, fileConfig)] whose type
    is [configType]. *)
Theorem importAllConfig_filters_diff_keys
    (configType : string) (resolved : list string)
    (fileConfig databaseConfig : gmap string json) (w : World) :
  let w' :=
    snd (importAllConfig_resolving strapi JSON_parse difference resolved
           (Some configType) w) in
  configType <> EmptyString ->
  resolved ≡ₚ include (config strapi) ->
  fst (getAllConfigFromFiles strapi JSON_parse None w) = Fulfilled fileConfig ->
  fst (getAllConfigFromDatabase_resolving strapi resolved None w) = Fulfilled databaseConfig ->
  onlyImports configType w w'
  /\ exists new,
       calls w' = calls w ++ new
       /\ new ≡ₚ omap (importedCall strapi JSON_parse (Some configType) (fs w))
                   (Object_keys (difference databaseConfig fileConfig)).
Proof.
  intros w' Hct _ Hf Hd. subst w'.
  rewrite (importAllConfig_resolving_run _ _ _ _ _ Hf Hd). split.
  - by apply forEach_onlyImports.
  - rewrite forEach_importDiffKey. simpl. by eexists.
Qed.

(** X15.  What [importAllConfig] does.  When both snapshots could be read,
    [importAllConfig] is fulfilled, leaves the files as they are, and
    invokes one [importSingle] for every key of the diff that passes the
    type filter, is not excluded and whose type has a provider, with the
    content that the file of the key holds: [null] for a key that has no
    file, and never another operation.  The calls are not awaited: they are
    made in some order, which need not be the order of the keys. *)
Theorem importAllConfig_calls
    (resolved : list string) (configType : option string)
    (fileConfig databaseConfig : gmap string json) (w : World) :
  let result :=
    importAllConfig_resolving strapi JSON_parse difference resolved configType w in
  resolved ≡ₚ include (config strapi) ->
  fst (getAllConfigFromFiles strapi JSON_parse None w) = Fulfilled fileConfig ->
  fst (getAllConfigFromDatabase_resolving strapi resolved None w) = Fulfilled databaseConfig ->
  fst result = Fulfilled tt
  /\ fs (snd result) = fs w
  /\ exists new,
       calls (snd result) = calls w ++ new
       /\ new ≡ₚ omap (importedCall strapi JSON_parse configType (fs w))
                   (Object_keys (difference databaseConfig fileConfig)).
Proof.
  intros result _ Hf Hd. subst result.
  rewrite (importAllConfig_resolving_run _ _ _ _ _ Hf Hd), forEach_importDiffKey.
  simpl. split; [done|]. split; [done|]. by eexists.
Qed.

(** X16.  [importAllConfig] reports the failure of reading a snapshot and no
    other: it is rejected, with the same error and without having done
    anything, when [getAllConfigFromFiles] or [getAllConfigFromDatabase] is,
    and fulfilled otherwise, also when an [importSingle] it started was
    rejected or a type of the diff has no provider. *)
Theorem importAllConfig_outcome (configType : option string) (w : World) :
  match fst (importAllConfig_snapshots strapi JSON_parse configType w) with
  | Fulfilled _ =>
      fst (importAllConfig strapi JSON_parse difference configType w) = Fulfilled tt
  | Rejected e =>
      importAllConfig strapi JSON_parse difference configType w = (Rejected e, w)
  end.
Proof.
  pose proof (importAllConfig_snapshots_world strapi JSON_parse configType w) as Hw.
  unfold importAllConfig, bind.
  destruct (importAllConfig_snapshots strapi JSON_parse configType w)
    as [[snapshots|e] w1]; simpl in *; subst w1; [|done].
  by rewrite forEach_importDiffKey.
Qed.

End ImportCalls.

(** ** The snapshots, entry by entry *)

Lemma promiseAllMap_readonly_invariant {A S} (P : S -> Prop) (body : A -> S -> M S)
    (l : list A) (w0 : World) :
  (forall x s, snd (body x s w0) = w0) ->
  (forall x s s', x ∈ l -> P s -> body x s w0 = (Fulfilled s', w0) -> P s') ->
  forall s s' w', P s -> promiseAllMap body l s w0 = (Fulfilled s', w') -> P s'.
Proof.
  intros Hworld. induction l as [|x l IH]; simpl; intros Hbody s s' w' Hs Hrun.
  - unfold ret in Hrun. by simplify_eq.
  - specialize (Hworld x s) as Hx.
    destruct (body x s w0) as [[s1|e] w1] eqn:Hrunx; simpl in Hx; subst w1; [|done].
    eapply IH; [|eapply Hbody; [by left|exact Hs|exact Hrunx]|exact Hrun].
    intros y t t' Hy. apply Hbody. by right.
Qed.

Lemma promiseAllMap_related {A S1 S2} (R : S1 -> S2 -> Prop)
    (body1 : A -> S1 -> M S1) (body2 : A -> S2 -> M S2) (l : list A) (w0 : World) :
  (forall x s1 s2, R s1 s2 ->
     match body1 x s1 w0, body2 x s2 w0 with
     | (Fulfilled a, wa), (Fulfilled b, wb) => R a b /\ wa = w0 /\ wb = w0
     | (Rejected e1, wa), (Rejected e2, wb) => e1 = e2 /\ wa = w0 /\ wb = w0
     | _, _ => False
     end) ->
  forall s1 s2, R s1 s2 ->
    match fst (promiseAllMap body1 l s1 w0), fst (promiseAllMap body2 l s2 w0) with
    | Fulfilled a, Fulfilled b => R a b
    | Rejected e1, Rejected e2 => e1 = e2
    | _, _ => False
    end.
Proof.
  intros Hbody. induction l as [|x l IH]; simpl; intros s1 s2 Hs; [done|].
  specialize (Hbody x s1 s2 Hs).
  destruct (body1 x s1 w0) as [[a|e1] wa], (body2 x s2 w0) as [[b|e2] wb];
    try done.
  - destruct Hbody as (Hab & -> & ->). by apply IH.
  - by destruct Hbody as (-> & -> & ->).
Qed.

Lemma promiseAllMap_some_rejected {A S} (body : A -> S -> M S) (l : list A) (x : A) :
  x ∈ l ->
  (forall s w, exists e w', body x s w = (Rejected e, w')) ->
  forall s w, exists e, fst (promiseAllMap body l s w) = Rejected e.
Proof.
  intros Hx Hhere. induction l as [|y l IH]; [by apply elem_of_nil in Hx|].
  simpl. intros s w.
  destruct (body y s w) as [[s1|e'] w1] eqn:Hy.
  - apply elem_of_cons in Hx as [->|Hx]; [|by apply IH].
    destruct (Hhere s w) as (e & w' & Hrej). congruence.
  - by exists e'.
Qed.

Lemma encodeName_formatName (name : string) :
  encodeName (formatName name) = encodeName name.
Proof.
  unfold encodeName, formatName. induction name as [|a name IH]; simpl; [done|].
  rewrite IH. f_equal.
  destruct (decide (a = "#"%char)) as [->|Hhash]; [done|].
  by destruct (decide (a = ":"%char)).
Qed.

Section SnapshotEntries.

Context (strapi : Strapi) (JSON_parse : string -> option json).

(** The callback of [getAllConfigFromFiles] leaves the world as it is. *)
Lemma fileCallback_world (configType : option string) (file : string)
    (s : gmap string json) (w : World) :
  snd (match Js.splitRest file with
       | None => throw TypeError
       | Some rest =>
           if typeFiltered configType (Js.first (Js.split "." file))
              || negb (Js.includes (include (config strapi)) (Js.first (Js.split "." file)))
              || Js.includes (exclude (config strapi))
                   (Js.first (Js.split "." file) +:+ "."
                    +:+ Js.join "." (Js.sliceInit (Js.split "." rest)))
           then ret s
           else
             let* fileContents :=
               readConfigFile strapi JSON_parse (Js.first (Js.split "." file))
                 (Js.join "." (Js.sliceInit (Js.split "." rest))) in
             ret (<[Js.first (Js.split "." file) +:+ "."
                    +:+ formatName (Js.join "." (Js.sliceInit (Js.split "." rest)))
                    := fileContents]> s)
       end w) = w.
Proof.
  destruct (Js.splitRest file) as [rest|]; [|done].
  destruct (_ || _ || _); [done|].
  unfold bind. by rewrite readConfigFile_fileValue.
Qed.

Lemma getAllConfigFromFiles_value_of
    (configType : option string) (key : string) (value : json)
    (w w' : World) (m : gmap string json) :
  getAllConfigFromFiles strapi JSON_parse configType w = (Fulfilled m, w') ->
  m !! key = Some value ->
  exists type name,
    key = type +:+ "." +:+ name
    /\ Js.occurs "." type = false
    /\ value = fileValue JSON_parse
                 (files (fs w) !! configPath strapi type (encodeName name)).
Proof.
  intros Hrun. revert key value. revert Hrun.
  unfold getAllConfigFromFiles, bind. rewrite existsSync_spec.
  destruct (bool_decide (pathExists _ w)); simpl.
  2:{ unfold ret. intros [= <- <-] key value Hv. by rewrite lookup_empty in Hv. }
  unfold Fs.readdirSync. case_bool_decide; [|by case_bool_decide].
  apply (promiseAllMap_readonly_invariant
           (fun s : gmap string json =>
              forall key value, s !! key = Some value ->
                exists type name,
                  key = type +:+ "." +:+ name
                  /\ Js.occurs "." type = false
                  /\ value = fileValue JSON_parse
                               (files (fs w) !! configPath strapi type (encodeName name)))).
  - intros file s. apply fileCallback_world.
  - intros file s s' _ Hs.
    destruct (Js.splitRest file) as [rest|]; [|done].
    set (type := Js.first (Js.split "." file)).
    set (name := Js.join "." (Js.sliceInit (Js.split "." rest))).
    destruct (_ || _ || _).
    { unfold ret. intros ?; by simplify_eq. }
    unfold bind. rewrite readConfigFile_fileValue.
    unfold ret. intros [= <-] key value.
    rewrite lookup_insert. case_decide as Hkey; [|apply Hs].
    intros [= <-]. exists type, (formatName name). split; [done|]. split.
    + apply first_split_no_sep.
    + by rewrite encodeName_formatName.
  - intros key value Hv. by rewrite lookup_empty in Hv.
Qed.

(** X17.  Every entry of the snapshot of the files has a key [type.name]
    with a type without ['.'], and holds what [readConfigFile(type, name)]
    returns: the parsed text of the file
    [destination ++ type ++ "." ++ encoded name ++ ".json"], or [null] when
    that file is missing or is not JSON. *)
Theorem getAllConfigFromFiles_values
    (configType : option string) (key : string) (value : json)
    (w w' : World) (m : gmap string json) :
  getAllConfigFromFiles strapi JSON_parse configType w = (Fulfilled m, w') ->
  m !! key = Some value ->
  exists type name,
    key = type +:+ "." +:+ name
    /\ Js.occurs "." type = false
    /\ value = fileValue JSON_parse
                 (files (fs w) !! configPath strapi type (encodeName name)).
Proof. apply getAllConfigFromFiles_value_of. Qed.

(** X18.  The type filter of [getAllConfigFromFiles] selects: with a filter
    (a non-empty string) the call returns the entries of the unfiltered
    snapshot whose key starts with that type, and it is rejected, with the
    same error, exactly when the unfiltered call is. *)
Theorem getAllConfigFromFiles_filter (configType : string) (w : World) :
  configType <> EmptyString ->
  match fst (getAllConfigFromFiles strapi JSON_parse None w),
        fst (getAllConfigFromFiles strapi JSON_parse (Some configType) w) with
  | Fulfilled m, Fulfilled m' =>
      m' = filter (fun entry : string * json =>
                     Js.first (Js.split "." (fst entry)) = configType) m
  | Rejected e, Rejected e' => e = e'
  | _, _ => False
  end.
Proof.
  intros Hct. unfold getAllConfigFromFiles, bind. rewrite existsSync_spec.
  destruct (bool_decide (pathExists _ w)); simpl.
  2:{ by rewrite map_filter_empty. }
  unfold Fs.readdirSync. case_bool_decide; [|by case_bool_decide].
  apply (promiseAllMap_related
           (fun m m' : gmap string json =>
              m' = filter (fun entry : string * json =>
                             Js.first (Js.split "." (fst entry)) = configType) m)).
  2:{ by rewrite map_filter_empty. }
  intros file m m' ->.
  destruct (Js.splitRest file) as [rest|]; [|done].
  set (type := Js.first (Js.split "." file)).
  set (name := Js.join "." (Js.sliceInit (Js.split "." rest))).
  change (typeFiltered None type) with false.
  assert (Js.first (Js.split "." (type +:+ "." +:+ formatName name)) = type) as Hkey.
  { change ("." +:+ formatName name) with (String "."%char (formatName name)).
    apply first_split_app_sep, first_split_no_sep. }
  unfold typeFiltered. rewrite (bool_decide_eq_false_2 _ Hct).
  destruct (bool_decide (configType = type)) eqn:Htype;
    destruct (Js.includes (include (config strapi)) type);
    destruct (Js.includes (exclude (config strapi)) (type +:+ "." +:+ name));
    simpl; unfold bind; rewrite ?readConfigFile_fileValue; unfold ret; simpl;
    try done; (split; [|done]).
  - rewrite map_filter_insert_True; [done|].
    simpl. rewrite Hkey. by apply bool_decide_eq_true in Htype.
  - rewrite map_filter_insert_not; [done|].
    intros y. simpl. rewrite Hkey. intros ->.
    by rewrite bool_decide_eq_true_2 in Htype.
Qed.

End SnapshotEntries.

Lemma typeFiltered_same (configType : string) :
  typeFiltered (Some configType) configType = false.
Proof.
  unfold typeFiltered.
  by rewrite (bool_decide_eq_true_2 (configType = configType)), andb_false_r.
Qed.

Lemma typeFiltered_other (configType type : string) :
  configType <> EmptyString -> configType <> type ->
  typeFiltered (Some configType) type = true.
Proof.
  intros Hct Hne. unfold typeFiltered.
  by rewrite (bool_decide_eq_false_2 _ Hct), (bool_decide_eq_false_2 _ Hne).
Qed.

Section DatabaseEntries.

Context (strapi : Strapi).

Lemma databaseCallback_world (configType : option string) (type : string)
    (s : gmap string json) (w : World) :
  snd ((if typeFiltered configType type then ret s
        else let* config := callGetAllFromDatabase strapi type in
             ret (Object_assign config s)) w) = w.
Proof.
  destruct (typeFiltered configType type); [done|].
  unfold bind, callGetAllFromDatabase.
  destruct (services strapi !! type) as [p|]; [|done].
  by destruct (getAllFromDatabase p).
Qed.

(** X19.  [getAllConfigFromDatabase] invents no entry: every entry of the
    snapshot is an entry that the provider of an included type, one that the
    type filter lets pass, lists. *)
Theorem getAllConfigFromDatabase_provenance
    (configType : option string) (key : string) (value : json)
    (w w' : World) (m : gmap string json) :
  getAllConfigFromDatabase strapi configType w = (Fulfilled m, w') ->
  m !! key = Some value ->
  exists type provider listed,
    type ∈ include (config strapi)
    /\ typeFiltered configType type = false
    /\ services strapi !! type = Some provider
    /\ getAllFromDatabase provider = Fulfilled listed
    /\ listed !! key = Some value.
Proof.
  intros Hrun. revert key value. revert Hrun. unfold getAllConfigFromDatabase.
  apply (promiseAllMap_readonly_invariant
           (fun s : gmap string json =>
              forall key value, s !! key = Some value ->
                exists type provider listed,
                  type ∈ include (config strapi)
                  /\ typeFiltered configType type = false
                  /\ services strapi !! type = Some provider
                  /\ getAllFromDatabase provider = Fulfilled listed
                  /\ listed !! key = Some value)).
  - intros type s. apply databaseCallback_world.
  - intros type s s' Htype Hs.
    destruct (typeFiltered configType type) eqn:Hfilter.
    { unfold ret. intros ?; by simplify_eq. }
    unfold bind, callGetAllFromDatabase.
    destruct (services strapi !! type) as [provider|] eqn:Hprov; [|done].
    destruct (getAllFromDatabase provider) as [listed|e] eqn:Hlisted; [|done].
    unfold ret, Object_assign. intros [= <-] key value.
    rewrite lookup_union_Some_raw. intros [Hold|[_ Hnew]]; [by apply Hs|].
    by exists type, provider, listed.
  - intros key value Hv. by rewrite lookup_empty in Hv.
Qed.

Lemma getAllConfigFromDatabase_one_type_run
    (configType : string) (provider : Provider) (listed : gmap string json)
    (types : list string) (acc : gmap string json) (w : World) :
  configType <> EmptyString ->
  services strapi !! configType = Some provider ->
  getAllFromDatabase provider = Fulfilled listed ->
  acc = ∅ \/ acc = listed ->
  promiseAllMap
    (fun type databaseConfigs =>
       if typeFiltered (Some configType) type then ret databaseConfigs
       else let* config := callGetAllFromDatabase strapi type in
            ret (Object_assign config databaseConfigs))
    types acc w
  = (Fulfilled (if bool_decide (configType ∈ types) then listed else acc), w).
Proof.
  intros Hct Hprov Hlisted. revert acc.
  induction types as [|type types IH]; intros acc Hacc; [by simpl|].
  cbn [promiseAllMap]. cbv beta.
  destruct (decide (configType = type)) as [<-|Htype].
  - rewrite typeFiltered_same.
    unfold bind at 1, callGetAllFromDatabase at 1. rewrite Hprov, Hlisted.
    unfold ret at 1.
    assert (Object_assign listed acc = listed) as ->.
    { unfold Object_assign. destruct Hacc as [->| ->].
      - apply (left_id_L ∅ (∪)).
      - apply (idemp_L (∪)). }
    rewrite IH by by right.
    rewrite (bool_decide_eq_true_2 (configType ∈ configType :: types)) by by left.
    by case_bool_decide.
  - rewrite (typeFiltered_other _ _ Hct Htype).
    unfold ret at 1. rewrite IH by done.
    destruct (decide (configType ∈ types)) as [Hin|Hin].
    + rewrite !bool_decide_eq_true_2; [done| |done]. by right.
    + rewrite !bool_decide_eq_false_2; [done| |done].
      intros [?|?]%elem_of_cons; done.
Qed.

(** X20.  With a type filter (a non-empty string) that names an included
    type, [getAllConfigFromDatabase] returns what the provider of that type
    lists, and asks no other provider: the providers of the other included
    types may be missing or failing. *)
Theorem getAllConfigFromDatabase_one_type
    (configType : string) (provider : Provider) (listed : gmap string json) (w : World) :
  configType <> EmptyString ->
  configType ∈ include (config strapi) ->
  services strapi !! configType = Some provider ->
  getAllFromDatabase provider = Fulfilled listed ->
  getAllConfigFromDatabase strapi (Some configType) w = (Fulfilled listed, w).
Proof.
  intros Hct Hin Hprov Hlisted. unfold getAllConfigFromDatabase.
  rewrite (getAllConfigFromDatabase_one_type_run _ provider listed) by auto.
  by rewrite bool_decide_eq_true_2.
Qed.

(** X21.  With a type filter (a non-empty string) that names no included
    type, [getAllConfigFromDatabase] returns the empty object and asks no
    provider, whether a provider of that type exists or not. *)
Theorem getAllConfigFromDatabase_other_type (configType : string) (w : World) :
  configType <> EmptyString ->
  configType ∉ include (config strapi) ->
  getAllConfigFromDatabase strapi (Some configType) w = (Fulfilled ∅, w).
Proof.
  intros Hct. unfold getAllConfigFromDatabase.
  generalize (∅ : gmap string json) as acc.
  induction (include (config strapi)) as [|type types IH]; intros acc Hin; [done|].
  cbn [promiseAllMap]. cbv beta. apply not_elem_of_cons in Hin as [Hne Hin].
  rewrite (typeFiltered_other _ _ Hct Hne). unfold ret at 1. by apply IH.
Qed.

End DatabaseEntries.

Section MissingProvider.

Context (strapi : Strapi) (JSON_parse : string -> option json).
Context (difference : gmap string json -> gmap string json -> list (string * json)).

(** X22.  When an included type has no provider service, [importAllConfig]
    is rejected and imports nothing, whatever the type filter: the snapshot
    of the database is read for all included types before the filter is
    applied. *)
Theorem importAllConfig_missing_provider
    (configType : option string) (type : string) (w : World) :
  type ∈ include (config strapi) ->
  services strapi !! type = None ->
  exists e, importAllConfig strapi JSON_parse difference configType w = (Rejected e, w).
Proof.
  intros Hin Hprov.
  assert (exists e, fst (importAllConfig_snapshots strapi JSON_parse configType w)
                    = Rejected e) as [e He].
  { unfold importAllConfig_snapshots, bind.
    pose proof (getAllConfigFromFiles_world strapi JSON_parse None w) as Hw.
    destruct (getAllConfigFromFiles strapi JSON_parse None w) as [[f|e] w1];
      simpl in Hw; subst w1; [|by exists e].
    destruct (promiseAllMap_some_rejected
                (fun type databaseConfigs =>
                   if typeFiltered None type then ret databaseConfigs
                   else let* config := callGetAllFromDatabase strapi type in
                        ret (Object_assign config databaseConfigs))
                (include (config strapi)) type Hin) with (s := (∅ : gmap string json)) (w := w)
      as [e He].
    { intros s w1. simpl. unfold bind, callGetAllFromDatabase. rewrite Hprov.
      by eexists _, _. }
    exists e. unfold getAllConfigFromDatabase.
    destruct (promiseAllMap _ _ _ w) as [[d|e'] w2]; simpl in *; [done|].
    by simplify_eq. }
  exists e. unfold importAllConfig, bind.
  pose proof (importAllConfig_snapshots_world strapi JSON_parse configType w) as Hw.
  destruct (importAllConfig_snapshots strapi JSON_parse configType w)
    as [[snapshots|e'] w1]; simpl in *; subst w1; [done|]. by simplify_eq.
Qed.

End MissingProvider.

(** ** The type filter and the empty string *)

(** X23.  An empty string as type filter is no filter: each of the four
    operations that take one does with [""] what it does with [null]. *)
Theorem empty_string_is_no_filter
    (strapi : Strapi) (JSON_parse : string -> option json)
    (difference : gmap string json -> gmap string json -> list (string * json))
    (w : World) :
  getAllConfigFromFiles strapi JSON_parse (Some EmptyString) w
    = getAllConfigFromFiles strapi JSON_parse None w
  /\ getAllConfigFromDatabase strapi (Some EmptyString) w
     = getAllConfigFromDatabase strapi None w
  /\ importAllConfig strapi JSON_parse difference (Some EmptyString) w
     = importAllConfig strapi JSON_parse difference None w
  /\ exportAllConfig strapi (Some EmptyString) w = exportAllConfig strapi None w.
Proof. repeat split; reflexivity. Qed.

(** ** Writing a file, then reading the snapshot *)

Lemma stripPrefix_app (p s : string) : Fs.stripPrefix p (p +:+ s) = Some s.
Proof.
  induction p as [|a p IH]; simpl; [by destruct s|].
  change (String a p +:+ s) with (String a (p +:+ s)).
  by rewrite decide_True.
Qed.

Lemma occurs_replaceAll_other (c d x : ascii) (s : string) :
  x <> d -> Js.occurs x s = false -> Js.occurs x (Js.replaceAll c d s) = false.
Proof.
  intros Hd. induction s as [|a s IH]; simpl; [done|].
  intros [Ha Hs]%orb_false_elim. rewrite (IH Hs), orb_false_r.
  destruct (decide (a = c)); [|done].
  apply bool_decide_eq_false. congruence.
Qed.

Lemma app_sep_inj (c : ascii) (s1 s2 u1 u2 : string) :
  Js.occurs c s1 = false -> Js.occurs c s2 = false ->
  s1 +:+ String c u1 = s2 +:+ String c u2 -> s1 = s2 /\ u1 = u2.
Proof.
  revert s2. induction s1 as [|a s1 IH]; intros [|b s2]; simpl.
  - intros _ _ [= ->]. done.
  - intros _ [Hb _]%orb_false_elim [= <- _]. by rewrite bool_decide_eq_true_2 in Hb.
  - intros [Ha _]%orb_false_elim _ [= -> _]. by rewrite bool_decide_eq_true_2 in Ha.
  - intros [_ H1]%orb_false_elim [_ H2]%orb_false_elim.
    change (String a s1 +:+ String c u1) with (String a (s1 +:+ String c u1)).
    change (String b s2 +:+ String c u2) with (String b (s2 +:+ String c u2)).
    intros [= -> Heq]. destruct (IH _ H1 H2 Heq) as [-> ->]. done.
Qed.

(** The parts that [getAllConfigFromFiles] reads off the name of the file
    of a pair. *)
Lemma fileName_parts (type name : string) :
  Js.occurs "." type = false ->
  Js.occurs "#" name = false ->
  singleLine name = true ->
  Js.first (Js.split "." (type +:+ "." +:+ encodeName name +:+ ".json")) = type
  /\ Js.splitRest (type +:+ "." +:+ encodeName name +:+ ".json")
     = Some (encodeName name +:+ ".json")
  /\ Js.join "." (Js.sliceInit (Js.split "." (encodeName name +:+ ".json")))
     = encodeName name
  /\ formatName (encodeName name) = name.
Proof.
  intros Htype Hname Hline.
  change ("." +:+ encodeName name +:+ ".json")
    with (String "."%char (encodeName name +:+ ".json")).
  split; [by apply first_split_app_sep|]. split; [|split].
  - apply splitRest_app_sep; [done| |].
    + rewrite singleLine_app. unfold encodeName. by rewrite singleLine_replaceAll.
    + by destruct (encodeName name).
  - change (encodeName name +:+ ".json")
      with (encodeName name +:+ String "."%char "json").
    rewrite split_app_sep. unfold Js.sliceInit.
    change (Js.split "." "json") with ["json"].
    rewrite removelast_snoc.
    change "." with (String "."%char EmptyString) at 1.
    apply join_split.
  - by apply replaceAll_inverse.
Qed.

Section WriteThenSnapshot.

Context (strapi : Strapi) (JSON_parse : string -> option json).

(** X24.  Write, then read the snapshot.  After [writeConfigFile] has
    written the contents of a pair, the snapshot of the files holds them
    under the key [type.name], provided that: the type is included, passes
    the filter and has no ['.'] and no ['/']; the name has no ['#'], no
    ['/'] and no line terminator; the pair is excluded under neither
    spelling of its name; the destination ends with ['/']; the write
    succeeds; and [JSON.parse] inverts [JSON.stringify] on the contents. *)
Theorem getAllConfigFromFiles_after_writeConfigFile
    (configType : option string) (type name : string) (fileContents : json)
    (w w'' : World) (m : gmap string json) :
  let w' := snd (writeConfigFile strapi type name fileContents w) in
  Js.occurs "." type = false ->
  Js.occurs "/" type = false ->
  Js.occurs "#" name = false ->
  Js.occurs "/" name = false ->
  singleLine name = true ->
  Fs.endsWithSlash (destination (config strapi)) = true ->
  Js.includes (include (config strapi)) type = true ->
  typeFiltered configType type = false ->
  excluded strapi (type +:+ "." +:+ name) = false ->
  excluded strapi (type +:+ "." +:+ encodeName name) = false ->
  pathExists (destination (config strapi)) w
    \/ destination (config strapi) ∉ readonly (fs w) ->
  configPath strapi type (encodeName name) ∉ dirs (fs w) ->
  configPath strapi type (encodeName name) ∉ readonly (fs w) ->
  JSON_parse (fileText strapi fileContents) = Some fileContents ->
  getAllConfigFromFiles strapi JSON_parse configType w' = (Fulfilled m, w'') ->
  m !! (type +:+ "." +:+ name) = Some fileContents.
Proof.
  intros w' Hdot Hslash Hhash Hnslash Hline Hend Hinc Hfilter Hex Hex' Hdest Hdir Hro
    Hparse Hrun.
  destruct (writeConfigFile_success strapi type name fileContents w Hex Hdest Hdir Hro)
    as (w1 & Hw1 & Hwrite).
  assert (files (fs w') !! configPath strapi type (encodeName name)
          = Some (fileText strapi fileContents)) as Hfile.
  { subst w'. rewrite Hwrite. simpl. apply lookup_insert_eq. }
  assert (pathExists (destination (config strapi)) w') as Hexists.
  { subst w'. rewrite Hwrite. unfold pathExists. simpl.
    revert Hw1. unfold ensureDestination, bind. rewrite existsSync_spec.
    case_bool_decide as Hbefore; simpl.
    - unfold ret. intros [= <-]. destruct Hbefore as [[x Hx]|Hd]; [left|by right].
      rewrite lookup_insert_ne by apply configPath_ne_destination. by eexists.
    - unfold Fs.mkdirSync. repeat case_bool_decide; intros [= <-]; simpl; right;
        first [done | apply elem_of_union; left; by apply elem_of_singleton]. }
  clearbody w'. clear Hwrite Hw1 w1.
  set (file := type +:+ "." +:+ encodeName name +:+ ".json").
  destruct (fileName_parts type name Hdot Hhash Hline) as (Htype & Hrest & Hname & Hformat).
  (* the directory lists the file *)
  assert (exists configFiles,
             Fs.readdirSync (destination (config strapi)) w' = (Fulfilled configFiles, w')
             /\ file ∈ configFiles) as (configFiles & Hlist & Hin).
  { revert Hrun. unfold getAllConfigFromFiles, bind. rewrite existsSync_spec.
    rewrite (bool_decide_eq_true_2 _ Hexists). simpl.
    unfold Fs.readdirSync. case_bool_decide as Hd; [|by case_bool_decide].
    intros _. eexists. split; [done|].
    apply list_elem_of_omap. exists (configPath strapi type (encodeName name)). split.
    - apply elem_of_elements, elem_of_union. left. apply elem_of_dom. by eexists.
    - unfold Fs.entryName. rewrite Hend. unfold configPath.
      rewrite stripPrefix_app. fold file.
      assert (Js.occurs "/" file = false) as ->.
      { subst file. rewrite !occurs_app, Hslash. unfold encodeName.
        by rewrite occurs_replaceAll_other. }
      rewrite bool_decide_eq_false_2; [done|]. subst file. by destruct type. }
  pose proof (getAllConfigFromFiles_lists strapi JSON_parse configType configFiles
                file (encodeName name +:+ ".json") w' w'' m Hlist Hin Hrest) as Hkey.
  simpl in Hkey. fold file in Htype. rewrite Htype, Hname, Hformat in Hkey.
  destruct (Hkey Hfilter Hinc Hex' Hrun) as [value Hvalue].
  destruct (getAllConfigFromFiles_value_of strapi JSON_parse configType _ value w' w'' m
              Hrun Hvalue) as (type' & name' & Heq & Hdot' & ->).
  change ("." +:+ name) with (String "."%char name) in Heq.
  change ("." +:+ name') with (String "."%char name') in Heq.
  destruct (app_sep_inj _ _ _ _ _ Hdot Hdot' Heq) as [<- <-].
  rewrite Hvalue, Hfile. simpl. by rewrite Hparse.
Qed.

End WriteThenSnapshot.

(** ** What [deleteConfigFile] leaves alone *)

(** X25.  Whatever happens, [deleteConfigFile] changes no file but the one
    at [destination ++ encoded key ++ ".json"], creates and removes no
    directory and invokes no provider operation; when it is rejected,
    nothing has changed. *)
Theorem deleteConfigFile_frame (strapi : Strapi) (key path : string) (w : World) :
  let result := deleteConfigFile strapi key w in
  path <> destination (config strapi) +:+ encodeName key +:+ ".json" ->
  files (fs (snd result)) !! path = files (fs w) !! path
  /\ dirs (fs (snd result)) = dirs (fs w)
  /\ calls (snd result) = calls w
  /\ (forall e, fst result = Rejected e -> snd result = w).
Proof.
  intros result Hpath. subst result. unfold deleteConfigFile.
  destruct (Js.includes _ _); [done|].
  unfold Fs.unlinkSync.
  destruct (files (fs w) !! _); repeat case_bool_decide; simpl; try done.
  by rewrite lookup_delete_ne.
Qed.

(** ** The composed operations on the scenarios *)


Lemma writeConfigFile_frame_witness :
  let w' := snd (writeConfigFile strapi_sync "core-store" "api::page" (JObj []) world_sync) in
  files (fs w') !! "config/sync/core-store.settings.json"
    = files (fs world_sync) !! "config/sync/core-store.settings.json"
  /\ calls w' = calls world_sync
  /\ dirs (fs world_sync) ⊆ dirs (fs w').
Proof.
  apply (writeConfigFile_frame strapi_sync "core-store" "api::page" (JObj []) world_sync
           "config/sync/core-store.settings.json").
  discriminate.
Defined.

Lemma writeConfigFile_twice_witness :
  snd (writeConfigFile strapi_sync "core-store" "api::page" (JObj [])
         (snd (writeConfigFile strapi_sync "core-store" "api::page" JNull world_sync)))
  = snd (writeConfigFile strapi_sync "core-store" "api::page" (JObj []) world_sync).
Proof.
  apply (writeConfigFile_twice strapi_sync "core-store" "api::page" JNull (JObj [])
           world_sync).
  - vm_compute. reflexivity.
  - left. right. by_evaluation.
  - by_evaluation.
  - by_evaluation.
Defined.

Lemma readConfigFile_after_deleteConfigFile_witness :
  let w' := snd (deleteConfigFile strapi_sync "core-store.settings" world_sync) in
  readConfigFile strapi_sync JSON_parse_scenario "core-store" "settings" w'
  = (Fulfilled JNull, w').
Proof.
  apply (readConfigFile_after_deleteConfigFile strapi_sync JSON_parse_scenario
           "core-store" "settings" world_sync).
  - reflexivity.
  - vm_compute. reflexivity.
  - vm_compute. reflexivity.
Defined.


Lemma deleteConfigFile_frame_witness :
  let result := deleteConfigFile strapi_sync "core-store.settings" world_sync in
  files (fs (snd result)) !! "config/sync/user-role.public.json"
    = files (fs world_sync) !! "config/sync/user-role.public.json"
  /\ dirs (fs (snd result)) = dirs (fs world_sync)
  /\ calls (snd result) = calls world_sync
  /\ (forall e, fst result = Rejected e -> snd result = world_sync).
Proof.
  apply (deleteConfigFile_frame strapi_sync "core-store.settings"
           "config/sync/user-role.public.json" world_sync).
  discriminate.
Defined.

Lemma importSingleConfig_calls_witness :
  importSingleConfig strapi_sync JSON_parse_scenario "core-store" "settings" world_sync
  = (Fulfilled tt,
     mkWorld (fs world_sync) [ImportSingle "core-store" "settings" (JObj [])]).
Proof.
  apply (importSingleConfig_calls strapi_sync JSON_parse_scenario "core-store" "settings"
           (providerOf {[ "user-role.public" := JNum 2 ]}) world_sync).
  - vm_compute. reflexivity.
  - vm_compute. reflexivity.
Defined.

Lemma importSingleConfig_no_provider_witness :
  importSingleConfig strapi_partial JSON_parse_scenario "core-store" "settings" world_sync
  = (Rejected TypeError, world_sync).
Proof.
  apply (importSingleConfig_no_provider strapi_partial JSON_parse_scenario
           "core-store" "settings" world_sync).
  - vm_compute. reflexivity.
  - vm_compute. reflexivity.
Defined.

Lemma importAllConfig_calls_witness :
  let result :=
    importAllConfig_resolving strapi_sync JSON_parse_scenario difference_scenario
      ["core-store"; "user-role"] None world_sync in
  fst result = Fulfilled tt
  /\ fs (snd result) = fs world_sync
  /\ exists new,
       calls (snd result) = calls world_sync ++ new
       /\ new ≡ₚ omap (importedCall strapi_sync JSON_parse_scenario None (fs world_sync))
                   (Object_keys
                      (difference_scenario
                         {[ "user-role.public" := JNum 2 ]}
                         {[ "core-store.settings" := JObj [];
                            "core-store.types::page" := JObj [];
                            "user-role.public" := JObj [] ]})).
Proof.
  apply (importAllConfig_calls strapi_sync JSON_parse_scenario difference_scenario
           ["core-store"; "user-role"] None
           {[ "core-store.settings" := JObj [];
              "core-store.types::page" := JObj [];
              "user-role.public" := JObj [] ]}
           {[ "user-role.public" := JNum 2 ]} world_sync).
  - by_evaluation.
  - vm_compute. reflexivity.
  - vm_compute. reflexivity.
Defined.

(** The one call of that run. *)
Example importAllConfig_resolving_core_store :
  calls (snd (importAllConfig_resolving strapi_sync JSON_parse_scenario difference_scenario
                ["core-store"; "user-role"] None world_sync))
  = [ImportSingle "core-store" "settings" (JObj [])].
Proof. vm_compute. reflexivity. Qed.

(** C4, as stated, fails.  With the filter [user-role], the snapshots that
    the claim describes, read with the filter, hold no entry of
    [core-store], and [difference_probe] reports nothing on them; but
    [importAllConfig] imports the key that [difference_probe] reports when it
    is handed a snapshot of the files with the entry [core-store.settings]. *)
Lemma importAllConfig_snapshots_hold_other_types :
  getAllConfigFromFiles strapi_sync JSON_parse_scenario (Some "user-role") world_sync
    = (Fulfilled {[ "user-role.public" := JObj [] ]}, world_sync)
  /\ getAllConfigFromDatabase strapi_sync (Some "user-role") world_sync
    = (Fulfilled {[ "user-role.public" := JNum 1 ]}, world_sync)
  /\ difference_probe {[ "user-role.public" := JNum 1 ]} {[ "user-role.public" := JObj [] ]}
    = []
  /\ calls (snd (importAllConfig strapi_sync JSON_parse_scenario difference_probe
                   (Some "user-role") world_sync))
    = [ImportSingle "user-role" "seen" JNull].
Proof.
  repeat split; vm_compute; reflexivity.
Qed.

Lemma importAllConfig_filters_diff_keys_witness :
  let w' :=
    snd (importAllConfig_resolving strapi_sync JSON_parse_scenario difference_scenario
           ["user-role"; "core-store"] (Some "core-store") world_sync) in
  onlyImports "core-store" world_sync w'
  /\ exists new,
       calls w' = calls world_sync ++ new
       /\ new ≡ₚ omap (importedCall strapi_sync JSON_parse_scenario (Some "core-store")
                         (fs world_sync))
                   (Object_keys
                      (difference_scenario
                         {[ "user-role.public" := JNum 1 ]}
                         {[ "core-store.settings" := JObj [];
                            "core-store.types::page" := JObj [];
                            "user-role.public" := JObj [] ]})).
Proof.
  apply (importAllConfig_filters_diff_keys strapi_sync JSON_parse_scenario
           difference_scenario "core-store" ["user-role"; "core-store"]
           {[ "core-store.settings" := JObj [];
              "core-store.types::page" := JObj [];
              "user-role.public" := JObj [] ]}
           {[ "user-role.public" := JNum 1 ]} world_sync).
  - discriminate.
  - by_evaluation.
  - vm_compute. reflexivity.
  - vm_compute. reflexivity.
Defined.

Lemma getAllConfigFromFiles_values_witness :
  exists type name,
    "user-role.public" = type +:+ "." +:+ name
    /\ Js.occurs "." type = false
    /\ JObj [] = fileValue JSON_parse_scenario
                   (files (fs world_sync) !! configPath strapi_sync type (encodeName name)).
Proof.
  apply (getAllConfigFromFiles_values strapi_sync JSON_parse_scenario None
           "user-role.public" (JObj []) world_sync world_sync
           {[ "core-store.settings" := JObj [];
              "core-store.types::page" := JObj [];
              "user-role.public" := JObj [] ]}).
  - vm_compute. reflexivity.
  - vm_compute. reflexivity.
Defined.

Lemma getAllConfigFromFiles_filter_witness :
  match fst (getAllConfigFromFiles strapi_sync JSON_parse_scenario None world_sync),
        fst (getAllConfigFromFiles strapi_sync JSON_parse_scenario (Some "user-role")
               world_sync) with
  | Fulfilled m, Fulfilled m' =>
      m' = filter (fun entry : string * json =>
                     Js.first (Js.split "." (fst entry)) = "user-role") m
  | Rejected e, Rejected e' => e = e'
  | _, _ => False
  end.
Proof.
  apply (getAllConfigFromFiles_filter strapi_sync JSON_parse_scenario "user-role"
           world_sync).
  discriminate.
Defined.

Lemma getAllConfigFromDatabase_provenance_witness :
  exists type provider listed,
    type ∈ include (config strapi_sync)
    /\ typeFiltered None type = false
    /\ services strapi_sync !! type = Some provider
    /\ getAllFromDatabase provider = Fulfilled listed
    /\ listed !! "user-role.public" = Some (JNum 1).
Proof.
  apply (getAllConfigFromDatabase_provenance strapi_sync None "user-role.public" (JNum 1)
           world_sync world_sync {[ "user-role.public" := JNum 1 ]}).
  - vm_compute. reflexivity.
  - vm_compute. reflexivity.
Defined.

Lemma getAllConfigFromDatabase_one_type_witness :
  getAllConfigFromDatabase strapi_partial (Some "user-role") world_sync
  = (Fulfilled {[ "user-role.public" := JNum 1 ]}, world_sync).
Proof.
  apply (getAllConfigFromDatabase_one_type strapi_partial "user-role"
           (providerOf {[ "user-role.public" := JNum 1 ]})
           {[ "user-role.public" := JNum 1 ]} world_sync).
  - discriminate.
  - by_evaluation.
  - vm_compute. reflexivity.
  - reflexivity.
Defined.

Lemma getAllConfigFromDatabase_other_type_witness :
  getAllConfigFromDatabase strapi_partial (Some "webhook") world_sync
  = (Fulfilled ∅, world_sync).
Proof.
  apply (getAllConfigFromDatabase_other_type strapi_partial "webhook" world_sync).
  - discriminate.
  - by_evaluation.
Defined.

Lemma importAllConfig_missing_provider_witness :
  exists e,
    importAllConfig strapi_partial JSON_parse_scenario difference_scenario
      (Some "user-role") world_sync = (Rejected e, world_sync).
Proof.
  apply (importAllConfig_missing_provider strapi_partial JSON_parse_scenario
           difference_scenario (Some "user-role") "core-store" world_sync).
  - by_evaluation.
  - vm_compute. reflexivity.
Defined.

Lemma getAllConfigFromFiles_after_writeConfigFile_witness :
  let w' := snd (writeConfigFile strapi_sync "core-store" "api::page" (JObj []) world_sync) in
  let m : gmap string json :=
    {[ "core-store.api::page" := JObj [];
       "core-store.settings" := JObj [];
       "core-store.types::page" := JObj [];
       "user-role.public" := JObj [] ]} in
  getAllConfigFromFiles strapi_sync JSON_parse_scenario None w' = (Fulfilled m, w')
  /\ m !! "core-store.api::page" = Some (JObj []).
Proof.
  assert (getAllConfigFromFiles strapi_sync JSON_parse_scenario None
            (snd (writeConfigFile strapi_sync "core-store" "api::page" (JObj []) world_sync))
          = (Fulfilled
               ({[ "core-store.api::page" := JObj [];
                   "core-store.settings" := JObj [];
                   "core-store.types::page" := JObj [];
                   "user-role.public" := JObj [] ]} : gmap string json),
             snd (writeConfigFile strapi_sync "core-store" "api::page" (JObj []) world_sync)))
    as Hrun by (vm_compute; reflexivity).
  split; [exact Hrun|].
  apply (getAllConfigFromFiles_after_writeConfigFile strapi_sync JSON_parse_scenario None
           "core-store" "api::page" (JObj []) world_sync
           (snd (writeConfigFile strapi_sync "core-store" "api::page" (JObj []) world_sync))).
  - reflexivity.
  - reflexivity.
  - reflexivity.
  - reflexivity.
  - reflexivity.
  - reflexivity.
  - vm_compute. reflexivity.
  - reflexivity.
  - vm_compute. reflexivity.
  - vm_compute. reflexivity.
  - left. right. by_evaluation.
  - by_evaluation.
  - by_evaluation.
  - vm_compute. reflexivity.
  - exact Hrun.
Defined.
